(** * APSYN420: a shallow embedding of the AnaPico APSYN 420 driver

    Source: [src/qcodes/instrument_drivers/AnaPico/APSYN420.py].

    The driver is a Python class deriving from [VisaInstrument].  Its
    methods are embedded as functions of a small state-and-exception
    monad over the instance state; the VISA transport is an oracle that
    decides what every write and query yields.  Python [str] values are
    modelled as [string]s of 7-bit ASCII code points, which is what the
    VISA transport delivers. *)

From Stdlib Require Import ZArith QArith Ascii String DecimalString Lia.
From stdpp Require Import base option list gmap strings.

Local Open Scope Z_scope.

(** ** Python string primitives *)

Module PyStr.

Definition code (c : ascii) : nat := nat_of_ascii c.

(** [str.isspace] on an ASCII code point: TAB..CR, FS..US and SPACE. *)
Definition isspace (c : ascii) : bool :=
  let n := code c in
  ((9 <=? n)%nat && (n <=? 13)%nat) || ((28 <=? n)%nat && (n <=? 32)%nat).

(** C-locale [isspace], the set [int()] and [float()] skip on ASCII text. *)
Definition c_isspace (c : ascii) : bool :=
  let n := code c in
  ((9 <=? n)%nat && (n <=? 13)%nat) || (n =? 32)%nat.

Definition islower (c : ascii) : bool :=
  let n := code c in (97 <=? n)%nat && (n <=? 122)%nat.

Definition upper_char (c : ascii) : ascii :=
  if islower c then ascii_of_nat (code c - 32) else c.

Definition lower_char (c : ascii) : ascii :=
  let n := code c in
  if (65 <=? n)%nat && (n <=? 90)%nat then ascii_of_nat (n + 32) else c.

Fixpoint map_chars (f : ascii -> ascii) (s : string) : string :=
  match s with
  | EmptyString => EmptyString
  | String c s' => String (f c) (map_chars f s')
  end.

(** [str.upper] and [str.lower]. *)
Definition upper : string -> string := map_chars upper_char.
Definition lower : string -> string := map_chars lower_char.

Fixpoint lstrip_by (sp : ascii -> bool) (s : string) : string :=
  match s with
  | EmptyString => EmptyString
  | String c s' => if sp c then lstrip_by sp s' else s
  end.

Fixpoint rstrip_by (sp : ascii -> bool) (s : string) : string :=
  match s with
  | EmptyString => EmptyString
  | String c s' =>
      match rstrip_by sp s' with
      | EmptyString => if sp c then EmptyString else String c EmptyString
      | r => String c r
      end
  end.

(** [str.strip()] with no argument. *)
Definition strip (s : string) : string := rstrip_by isspace (lstrip_by isspace s).

(** [str.startswith]. *)
Definition startswith (s p : string) : bool := String.prefix p s.

Fixpoint all_chars (p : ascii -> bool) (s : string) : bool :=
  match s with
  | EmptyString => true
  | String c s' => p c && all_chars p s'
  end.

Definition first_char (s : string) : option ascii :=
  match s with EmptyString => None | String c _ => Some c end.

Fixpoint last_char (s : string) : option ascii :=
  match s with
  | EmptyString => None
  | String c EmptyString => Some c
  | String _ s' => last_char s'
  end.

(** No whitespace at either end. *)
Definition trimmed (s : string) : bool :=
  match first_char s, last_char s with
  | Some a, Some b => negb (isspace a) && negb (isspace b)
  | _, _ => true
  end.

End PyStr.

(** ** Response parsing helpers of the driver *)

(** [APSYN420.parse_on_off]. *)
Definition parse_on_off (stat : string) : string :=
  if PyStr.startswith stat "0" then "off"
  else if PyStr.startswith stat "1" then "on"
  else stat.

(** [APSYN420.parse_str]. *)
Definition parse_str (s : string) : string := PyStr.upper (PyStr.strip s).

(** ** Python number parsing and formatting *)

Module PyNum.

Definition digit_of (c : ascii) : option N :=
  let n := PyStr.code c in
  if (48 <=? n)%nat && (n <=? 57)%nat then Some (N.of_nat (n - 48)) else None.

(** [digit (["_"] digit)*]: value and number of digits, or [None]. *)
Fixpoint digitpart (s : string) (acc : N) (cnt : nat) (prev_digit : bool)
  : option (N * nat) :=
  match s with
  | EmptyString => if prev_digit then Some (acc, cnt) else None
  | String c s' =>
      match digit_of c with
      | Some d => digitpart s' (10 * acc + d)%N (S cnt) true
      | None =>
          if Ascii.eqb c "_" && prev_digit then digitpart s' acc cnt false
          else None
      end
  end.

Definition digits (s : string) : option (N * nat) := digitpart s 0%N 0%nat false.

(** Optional sign: [(negative, rest)]. *)
Definition split_sign (s : string) : bool * string :=
  match s with
  | String "-" r => (true, r)
  | String "+" r => (false, r)
  | _ => (false, s)
  end.

Definition c_strip (s : string) : string :=
  PyStr.rstrip_by PyStr.c_isspace (PyStr.lstrip_by PyStr.c_isspace s).

(** [int(s)] for a [str] argument, base 10; [None] is [ValueError]. *)
Definition py_int (s : string) : option Z :=
  let '(neg, body) := split_sign (c_strip s) in
  match digits body with
  | Some (n, _) => Some (if neg then - Z.of_N n else Z.of_N n)
  | None => None
  end.

(** What a float literal denotes; rounding to binary64 is not modelled. *)
Inductive float_literal :=
| FNan
| FInf (neg : bool)
| FDec (neg : bool) (mantissa : N) (exp10 : Z).

(** Split at the first character satisfying [p]; the separator is dropped. *)
Fixpoint split_first (p : ascii -> bool) (s : string) : string * option string :=
  match s with
  | EmptyString => (EmptyString, None)
  | String c s' =>
      if p c then (EmptyString, Some s')
      else let '(a, b) := split_first p s' in (String c a, b)
  end.

Definition is_exp_mark (c : ascii) : bool := Ascii.eqb c "e" || Ascii.eqb c "E".
Definition is_dot (c : ascii) : bool := Ascii.eqb c ".".

(** [[digitpart] "." digitpart | digitpart ["."]]:
    all digits read as one integer, and the number of fraction digits. *)
Definition mantissa (m : string) : option (N * nat) :=
  match split_first is_dot m with
  | (ip, None) =>
      match digits ip with Some (v, _) => Some (v, 0%nat) | None => None end
  | (EmptyString, Some fp) =>
      match digits fp with Some (v, k) => Some (v, k) | None => None end
  | (ip, Some EmptyString) =>
      match digits ip with Some (v, _) => Some (v, 0%nat) | None => None end
  | (ip, Some fp) =>
      match digits ip, digits fp with
      | Some (v, _), Some (w, k) => Some (v * 10 ^ N.of_nat k + w, k)%N
      | _, _ => None
      end
  end.

Definition exponent (e : string) : option Z :=
  let '(neg, body) := split_sign e in
  match digits body with
  | Some (n, _) => Some (if neg then - Z.of_N n else Z.of_N n)
  | None => None
  end.

(** [float(s)] for a [str] argument; [None] is [ValueError]. *)
Definition py_float (s : string) : option float_literal :=
  let '(neg, body) := split_sign (c_strip s) in
  let low := PyStr.lower body in
  if String.eqb low "inf" || String.eqb low "infinity" then Some (FInf neg)
  else if String.eqb low "nan" then Some FNan
  else
    let '(m, oe) := split_first is_exp_mark body in
    match mantissa m with
    | None => None
    | Some (v, k) =>
        match oe with
        | None => Some (FDec neg v (- Z.of_nat k))
        | Some e =>
            match exponent e with
            | Some x => Some (FDec neg v (x - Z.of_nat k))
            | None => None
            end
        end
    end.

(** A Python number as the driver's callers may pass it. *)
Inductive number :=
| Finite (q : Q)
| Infinite (neg : bool)
| NaN.

Definition string_of_Z (z : Z) : string := NilZero.string_of_int (Z.to_int z).

(** ['%d' % x] for a finite number: truncation towards zero. *)
Definition format_d (q : Q) : string :=
  string_of_Z (Z.quot (Qnum q) (Zpos (Qden q))).

(** Round to the nearest integer, ties to even, of a non-negative [n / d]. *)
Definition round_half_even (n : Z) (d : positive) : Z :=
  let q := n / Zpos d in
  let r := n mod Zpos d in
  match 2 * r ?= Zpos d with
  | Lt => q
  | Gt => q + 1
  | Eq => if Z.even q then q else q + 1
  end.

Definition pad3 (z : Z) : string :=
  let s := string_of_Z z in
  match String.length s with
  | 1%nat => "00" +:+ s
  | 2%nat => "0" +:+ s
  | _ => s
  end.

(** ['{:.3f}'.format(x)] for a finite number. *)
Definition format_3f (q : Q) : string :=
  let m := round_half_even (Z.abs (Qnum q) * 1000) (Qden q) in
  (if Qnum q <? 0 then "-" else "") +:+ string_of_Z (m / 1000)
    +:+ "." +:+ pad3 (m mod 1000).

End PyNum.

(** ** Runtime: transport, instance state, exceptions *)

(** A VISA session object as the driver sees it. *)
Record handle := Handle {
  session : nat;
  resource_name : string;
  write_termination : string;
  read_termination : option string
}.

(** The VISA library and the device behind it: what the [k]-th write and the
    [k]-th query of a run yield, and the terminations of a newly opened
    session.  A write yields [(nr_bytes_written, ret_code)]. *)
Record transport := Transport {
  write_result : nat -> string -> Z * Z;
  query_result : nat -> string -> string;
  opened_write_termination : string;
  opened_read_termination : option string
}.

Inductive event :=
| EvOpen (s : nat) (address : string)
| EvWrite (s : nat) (cmd : string)
| EvQuery (s : nat) (cmd : string)
| EvClose (s : nat)
| EvLog (msg : string)
| EvPrint (msg : string)
| EvSleep (seconds : Z)
| EvAddParameter (param : string).

Inductive exn :=
| VisaIOError (code : Z)
| ValueError
| OverflowError
| KeyError
| NameError (name : string)
| AttributeError
| TypeError.

Inductive value :=
| VNone
| VStr (s : string)
| VNum (x : PyNum.number).

(** Functions that the driver stores in instance attributes. *)
Inductive func :=
| F_ask_raw_close
| F_write_raw_close
| F_VisaInstrument_ask_raw
| F_VisaInstrument_write_raw.

(** [self.f] evaluates to a bound method, [VisaInstrument.f] to the plain
    function, which still expects [self] as its first argument. *)
Inductive callable :=
| BoundMethod (f : func)
| PlainFunction (f : func).

Inductive validator :=
| Numbers (min_value max_value : Q)
| OnOff.

Inductive parser :=
| P_float
| P_parse_on_off
| P_parse_str.

(** The keyword arguments of one [add_parameter] call (the docstring, which
    the driver gives for [pulm_polarity] only, is documentation and left out). *)
Record parameter := MkParameter {
  unit_ : option string;
  set_cmd : string;
  get_cmd : string;
  vals : option validator;
  val_mapping : option (list (string * string));
  get_parser : option parser
}.

(** The instance ([self]) together with the log of what the run did. *)
Record state := State {
  name : string;
  _address : string;
  visa_handle : option handle;
  attrs : gmap string callable;
  parameters : gmap string parameter;
  trace : list event
}.

Definition set_visa_handle (h : option handle) (st : state) : state :=
  State (name st) (_address st) h (attrs st) (parameters st) (trace st).

Definition set_attr (k : string) (c : callable) (st : state) : state :=
  State (name st) (_address st) (visa_handle st) (<[k := c]> (attrs st))
        (parameters st) (trace st).

Definition set_parameter (k : string) (p : parameter) (st : state) : state :=
  State (name st) (_address st) (visa_handle st) (attrs st)
        (<[k := p]> (parameters st)) (trace st).

Definition emit_event (e : event) (st : state) : state :=
  State (name st) (_address st) (visa_handle st) (attrs st) (parameters st)
        (trace st ++ [e]).

Definition is_open (e : event) : bool := match e with EvOpen _ _ => true | _ => false end.
Definition is_close (e : event) : bool := match e with EvClose _ => true | _ => false end.
Definition is_write (e : event) : bool := match e with EvWrite _ _ => true | _ => false end.
Definition is_query (e : event) : bool := match e with EvQuery _ _ => true | _ => false end.

Definition count_events (p : event -> bool) (t : list event) : nat :=
  length (List.filter p t).

Definition open_count := count_events is_open.
Definition close_count := count_events is_close.
Definition write_count := count_events is_write.
Definition query_count := count_events is_query.

(** ** Statements: state, exceptions, [return], and loop fuel *)

Inductive completion (R A : Type) :=
| Normal (a : A)
| Returned (r : R)
| Raised (e : exn)
| OutOfFuel.

Arguments Normal {R A} a.
Arguments Returned {R A} r.
Arguments Raised {R A} e.
Arguments OutOfFuel {R A}.

Definition stmt (R A : Type) : Type := state -> completion R A * state.

Definition pure {R A} (a : A) : stmt R A := fun st => (Normal a, st).
Definition return_ {R A} (r : R) : stmt R A := fun st => (Returned r, st).
Definition raise {R A} (e : exn) : stmt R A := fun st => (Raised e, st).

Definition bind {R A B} (m : stmt R A) (k : A -> stmt R B) : stmt R B :=
  fun st =>
    match m st with
    | (Normal a, st') => k a st'
    | (Returned r, st') => (Returned r, st')
    | (Raised e, st') => (Raised e, st')
    | (OutOfFuel, st') => (OutOfFuel, st')
    end.

Notation "'do' x <- m ; k" := (bind m (fun x => k))
  (at level 10, x pattern, m at level 100, k at level 200).
Notation "m ;; k" := (bind m (fun _ => k))
  (at level 100, k at level 200, right associativity).

Definition read {R A} (f : state -> A) : stmt R A := fun st => (Normal (f st), st).
Definition update {R} (f : state -> state) : stmt R unit := fun st => (Normal tt, f st).
Definition emit {R} (e : event) : stmt R unit := update (emit_event e).

(** A function call: the body's [return v] is the call's value, falling off
    the end yields [None]. *)
Definition def_ {R} (body : stmt value unit) : stmt R value :=
  fun st =>
    match body st with
    | (Normal _, st') => (Normal VNone, st')
    | (Returned v, st') => (Normal v, st')
    | (Raised e, st') => (Raised e, st')
    | (OutOfFuel, st') => (OutOfFuel, st')
    end.

(** [while cond: body], unrolled at most [fuel] times. *)
Fixpoint while_ {R} (fuel : nat) (cond : stmt R bool) (body : stmt R unit)
  : stmt R unit :=
  match fuel with
  | O => fun st => (OutOfFuel, st)
  | S fuel' =>
      do b <- cond;
      if b then body ;; while_ fuel' cond body else pure tt
  end.

(** Names bound at module level by the imports, the [log] assignment and the
    class statement. *)
Definition module_globals : list string :=
  ["visa"; "logging"; "VisaInstrument"; "vals"; "log"; "APSYN420"].

(** Evaluating a global name. *)
Definition load_global {R} (n : string) : stmt R unit :=
  if bool_decide (n ∈ module_globals) then pure tt else raise (NameError n).

(** ** The VISA session operations the driver calls *)

Section Driver.

Variable tr : transport.

(** [visa.ResourceManager().open_resource(address)]. *)
Definition open_resource {R} (address : string) : stmt R handle :=
  load_global "visa" ;;
  do n <- read (fun st => open_count (trace st));
  emit (EvOpen n address) ;;
  pure (Handle n address (opened_write_termination tr)
               (opened_read_termination tr)).

(** [h.write(cmd)]. *)
Definition handle_write {R} (h : handle) (cmd : string) : stmt R (Z * Z) :=
  do k <- read (fun st => write_count (trace st));
  emit (EvWrite (session h) cmd) ;;
  pure (write_result tr k cmd).

(** [h.query(cmd)]. *)
Definition handle_query {R} (h : handle) (cmd : string) : stmt R string :=
  do k <- read (fun st => query_count (trace st));
  emit (EvQuery (session h) cmd) ;;
  pure (query_result tr k cmd).

(** [h.close()]. *)
Definition handle_close {R} (h : handle) : stmt R unit :=
  emit (EvClose (session h)).

(** Evaluating [self.visa_handle] as the receiver of a method call or an
    attribute assignment: [None] has no such attribute. *)
Definition the_handle {R} : stmt R handle :=
  do h <- read visa_handle;
  match h with
  | Some h => pure h
  | None => raise AttributeError
  end.

(** [log.debug(fmt.format(self.name, cmd))]. *)
Definition log_debug {R} (what : string) (cmd : string) : stmt R unit :=
  load_global "log" ;;
  do nm <- read name;
  emit (EvLog (what +:+ " instrument " +:+ nm +:+ ": " +:+ cmd)).

(** Modelled from the spec: [VisaInstrument.check_error], which is not
    under src/.  A transport-reported error code is surfaced as a Command
    Failure carrying the code; the code [0] is success. *)
Definition check_error {R} (ret_code : Z) : stmt R unit :=
  if ret_code =? 0 then pure tt else raise (VisaIOError ret_code).

(** ** The transaction layer *)

(** [if not self.visa_handle: self.visa_handle = ...open_resource(self._address)];
    a session object is truthy, [None] is not. *)
Definition acquire {R} : stmt R unit :=
  do h <- read visa_handle;
  match h with
  | Some _ => pure tt
  | None =>
      do a <- read _address;
      do h' <- open_resource a;
      update (set_visa_handle (Some h'))
  end.

(** [APSYN420.write_raw_close]. *)
Definition write_raw_close (cmd : string) : stmt value unit :=
  log_debug "Writing to" cmd ;;
  acquire ;;
  do h <- the_handle;
  do (nr_bytes_written, ret_code) <- handle_write h cmd;
  check_error ret_code ;;
  do h <- the_handle;
  handle_close h ;;
  update (set_visa_handle None).

(** [APSYN420.ask_raw_close], with the two statements that follow its
    [return]. *)
Definition ask_raw_close (cmd : string) : stmt value unit :=
  log_debug "Querying" cmd ;;
  acquire ;;
  do h <- the_handle;
  do r <- handle_query h cmd;
  return_ (A := unit) (VStr r) ;;
  do h <- the_handle;
  handle_close h ;;
  update (set_visa_handle None).

(** Modelled from the spec: [VisaInstrument.write_raw], which is not under
    src/.  The base implementation logs the command and writes directly
    using the already-open handle, surfacing an error code as above. *)
Definition VisaInstrument_write_raw (cmd : string) : stmt value unit :=
  log_debug "Writing to" cmd ;;
  do h <- the_handle;
  do (nr_bytes_written, ret_code) <- handle_write h cmd;
  check_error ret_code.

(** Modelled from the spec: [VisaInstrument.ask_raw], which is not under
    src/.  The base implementation queries over the already-open handle
    and returns the decoded response. *)
Definition VisaInstrument_ask_raw (cmd : string) : stmt value unit :=
  log_debug "Querying" cmd ;;
  do h <- the_handle;
  do r <- handle_query h cmd;
  return_ (VStr r).

Definition apply_func {R} (f : func) (cmd : string) : stmt R value :=
  match f with
  | F_ask_raw_close => def_ (ask_raw_close cmd)
  | F_write_raw_close => def_ (write_raw_close cmd)
  | F_VisaInstrument_ask_raw => def_ (VisaInstrument_ask_raw cmd)
  | F_VisaInstrument_write_raw => def_ (VisaInstrument_write_raw cmd)
  end.

(** Calling a stored callable with the single argument [cmd]: a bound
    method receives [self] and [cmd]; a plain function receives [cmd] as
    its [self] and lacks the argument [cmd]. *)
Definition call {R} (c : callable) (cmd : string) : stmt R value :=
  match c with
  | BoundMethod f => apply_func f cmd
  | PlainFunction _ => raise TypeError
  end.

(** [self.<attr>(cmd)]: the instance attribute if one was assigned, else
    the method found on the class. *)
Definition call_attr {R} (attr : string) (on_class : string -> stmt R value)
           (cmd : string) : stmt R value :=
  do a <- read (fun st => attrs st !! attr);
  match a with
  | Some c => call c cmd
  | None => on_class cmd
  end.

(** [self.write_raw(cmd)] and [self.ask_raw(cmd)]. *)
Definition write_raw {R} : string -> stmt R value :=
  call_attr "write_raw" (apply_func F_VisaInstrument_write_raw).
Definition ask_raw {R} : string -> stmt R value :=
  call_attr "ask_raw" (apply_func F_VisaInstrument_ask_raw).

(** Modelled from the spec: [Instrument.write] and [Instrument.ask], which
    are not under src/.  Each delegates to the transaction layer, that is
    to whatever [self.write_raw] and [self.ask_raw] denote at the time. *)
Definition Instrument_write {R} (cmd : string) : stmt R value :=
  def_ (write_raw cmd ;; pure tt).
Definition Instrument_ask {R} (cmd : string) : stmt R value :=
  def_ (do answer <- ask_raw cmd; return_ answer).

(** [self.write(cmd)] and [self.ask(cmd)]. *)
Definition write {R} : string -> stmt R value := call_attr "write" Instrument_write.
Definition ask {R} : string -> stmt R value := call_attr "ask" Instrument_ask.

(** [APSYN420.close_after]. *)
Definition close_after : stmt value unit :=
  update (set_attr "ask_raw" (BoundMethod F_ask_raw_close)) ;;
  update (set_attr "write_raw" (BoundMethod F_write_raw_close)).

(** [APSYN420.dont_close_after]. *)
Definition dont_close_after : stmt value unit :=
  load_global "VisaInstrument" ;;
  update (set_attr "ask_raw" (PlainFunction F_VisaInstrument_ask_raw)) ;;
  load_global "VisaInstrument" ;;
  update (set_attr "write" (PlainFunction F_VisaInstrument_write_raw)).

(** ** Reference-lock routine *)

(** [v.strip()] on the value a query produced. *)
Definition str_strip {R} (v : value) : stmt R string :=
  match v with
  | VStr s => pure (PyStr.strip s)
  | _ => raise AttributeError
  end.

(** [int(s)]. *)
Definition int_ {R} (s : string) : stmt R Z :=
  match PyNum.py_int s with
  | Some n => pure n
  | None => raise ValueError
  end.

(** [APSYN420.set_external_reference]; [fuel] bounds the iterations of
    its [while] loop. *)
Definition set_external_reference (fuel : nat) (frequency : Q)
  : stmt value unit :=
  load_global "logging" ;;
  emit (EvLog "Setting the Oscillator source to external") ;;
  write "ROSC:SOUR EXT" ;;
  write ("ROSC:EXT:FREQ " +:+ PyNum.format_d frequency) ;;
  write "ROSC:OUTP:STATE 1" ;;
  write ("ROSC:OUTP:FREQ " +:+ PyNum.format_d frequency) ;;
  while_ fuel
    (do r <- ask "ROSC:LOCK?";
     do s <- str_strip r;
     do n <- int_ s;
     pure (negb (n =? 1)))
    (emit (EvPrint "Waiting for lock on APSYN") ;;
     load_global "qt" ;;
     emit (EvSleep 1)).

(** The default value of the [frequency] argument, [10e6]. *)
Definition default_frequency : Q := 10000000 # 1.

(** ['%d' % x] for any number: an infinity or a NaN has no integer value. *)
Definition percent_d {R} (x : PyNum.number) : stmt R string :=
  match x with
  | PyNum.Finite q => pure (PyNum.format_d q)
  | PyNum.Infinite _ => raise OverflowError
  | PyNum.NaN => raise ValueError
  end.

(** [APSYN420.set_external_reference] on any number; on a finite one it
    is [set_external_reference] above. *)
Definition set_external_reference_any (fuel : nat) (frequency : PyNum.number)
  : stmt value unit :=
  load_global "logging" ;;
  emit (EvLog "Setting the Oscillator source to external") ;;
  write "ROSC:SOUR EXT" ;;
  do d <- percent_d frequency;
  write ("ROSC:EXT:FREQ " +:+ d) ;;
  write "ROSC:OUTP:STATE 1" ;;
  do d' <- percent_d frequency;
  write ("ROSC:OUTP:FREQ " +:+ d') ;;
  while_ fuel
    (do r <- ask "ROSC:LOCK?";
     do s <- str_strip r;
     do n <- int_ s;
     pure (negb (n =? 1)))
    (emit (EvPrint "Waiting for lock on APSYN") ;;
     load_global "qt" ;;
     emit (EvSleep 1)).

(** ** Parameter registry *)

(** Modelled from the spec: [vals.Numbers] and [vals.OnOff] of the
    validators module, which is not under src/.  [Numbers] accepts a
    number inside the closed range, [OnOff] the strings [on] and [off]. *)
Definition validate (v : validator) (x : value) : bool :=
  match v, x with
  | Numbers lo hi, VNum (PyNum.Finite q) => Qle_bool lo q && Qle_bool q hi
  | OnOff, VStr s => bool_decide (s ∈ ["on"; "off"])
  | _, _ => false
  end.

Fixpoint assoc (k : string) (m : list (string * string)) : option string :=
  match m with
  | [] => None
  | (k', v) :: m' => if String.eqb k k' then Some v else assoc k m'
  end.

Fixpoint assoc_inv (v : string) (m : list (string * string)) : option string :=
  match m with
  | [] => None
  | (k, v') :: m' => if String.eqb v v' then Some k else assoc_inv v m'
  end.

Definition is_lbrace (c : ascii) : bool := Ascii.eqb c "{".
Definition is_rbrace (c : ascii) : bool := Ascii.eqb c "}".

(** [template.format(x)] for a template with at most one replacement
    field, on the field specifications and argument types the registered
    parameters use: [{}] with a [str] and [{:.3f}] with a finite number.
    [None] stands for the exception any other combination raises. *)
Definition py_format (template : string) (x : value) : option string :=
  match PyNum.split_first is_lbrace template with
  | (_, None) => Some template
  | (pre, Some rest) =>
      match PyNum.split_first is_rbrace rest with
      | (_, None) => None
      | (spec, Some post) =>
          match x with
          | VStr s =>
              if String.eqb spec "" then Some (pre +:+ s +:+ post) else None
          | VNum (PyNum.Finite q) =>
              if String.eqb spec ":.3f"
              then Some (pre +:+ PyNum.format_3f q +:+ post) else None
          | _ => None
          end
      end
  end.

(** The exact value a float literal denotes. *)
Definition number_of_literal (f : PyNum.float_literal) : PyNum.number :=
  match f with
  | PyNum.FNan => PyNum.NaN
  | PyNum.FInf neg => PyNum.Infinite neg
  | PyNum.FDec neg m e =>
      let z := if neg then - Z.of_N m else Z.of_N m in
      PyNum.Finite
        (if 0 <=? e then (z * 10 ^ e) # 1 else z # Z.to_pos (10 ^ (- e)))
  end.

(** Applying a [get_parser] to the value a query produced. *)
Definition apply_parser {R} (p : parser) (v : value) : stmt R value :=
  match v with
  | VStr s =>
      match p with
      | P_float =>
          match PyNum.py_float s with
          | Some f => pure (VNum (number_of_literal f))
          | None => raise ValueError
          end
      | P_parse_on_off => pure (VStr (parse_on_off s))
      | P_parse_str => pure (VStr (parse_str s))
      end
  | VNone => match p with P_float => raise TypeError | _ => raise AttributeError end
  | VNum _ => match p with P_float => pure v | _ => raise AttributeError end
  end.

(** Modelled from the spec: [add_parameter] of the instrument base class,
    which is not under src/.  It records the entry under its name. *)
Definition add_parameter {R} (k : string) (p : parameter) : stmt R unit :=
  emit (EvAddParameter k) ;;
  update (set_parameter k p).

Definition lookup_parameter {R} (k : string) : stmt R parameter :=
  do p <- read (fun st => parameters st !! k);
  match p with
  | Some p => pure p
  | None => raise KeyError
  end.

(** Modelled from the spec: setting a registered parameter (the parameter
    class is not under src/).  The value is checked by the validator, or
    against the keys of the alias map, mapped through the alias map,
    substituted into the set command template and sent with [write]. *)
Definition param_set (k : string) (x : value) : stmt value unit :=
  do p <- lookup_parameter k;
  do raw <-
    match val_mapping p with
    | Some m =>
        match x with
        | VStr s =>
            match assoc s m with
            | Some a => pure (VStr a)
            | None => raise ValueError
            end
        | _ => raise ValueError
        end
    | None =>
        match vals p with
        | Some v => if validate v x then pure x else raise ValueError
        | None => pure x
        end
    end;
  match py_format (set_cmd p) raw with
  | Some cmd => write cmd ;; pure tt
  | None => raise ValueError
  end.

(** Modelled from the spec: getting a registered parameter (the parameter
    class is not under src/).  The get command is sent with [ask], the
    reply goes through the value parser and then, for a parameter with an
    alias map, through the look-up from alias back to value. *)
Definition param_get (k : string) : stmt value unit :=
  do p <- lookup_parameter k;
  do r <- ask (get_cmd p);
  do v <- match get_parser p with
          | Some f => apply_parser f r
          | None => pure r
          end;
  match val_mapping p with
  | Some m =>
      match v with
      | VStr s =>
          match assoc_inv s m with
          | Some key => return_ (VStr key)
          | None => raise KeyError
          end
      | _ => raise KeyError
      end
  | None => return_ v
  end.

(** ** Construction *)

Definition CRLF : string := String (ascii_of_nat 13) (String (ascii_of_nat 10) "").

Definition set_write_termination (t : string) (h : handle) : handle :=
  Handle (session h) (resource_name h) t (read_termination h).
Definition set_read_termination (t : option string) (h : handle) : handle :=
  Handle (session h) (resource_name h) (write_termination h) t.

(** Modelled from the spec: [VisaInstrument.__init__], which is not under
    src/.  It records name and address and opens the handle bound to the
    address. *)
Definition VisaInstrument_init {R} (nm address : string) : stmt R unit :=
  update (fun st => State nm address (visa_handle st) (attrs st)
                          (parameters st) (trace st)) ;;
  do h <- open_resource address;
  update (set_visa_handle (Some h)).

Definition frequency_parameter : parameter :=
  MkParameter (Some "Hz") "FREQ {:.3f}" "FREQ?"
              (Some (Numbers (2490236 # 1) (20000000000 # 1))) None (Some P_float).
Definition blanking_parameter : parameter :=
  MkParameter None "OUTP:BLAN {}" "OUTP:BLAN?" (Some OnOff) None (Some P_parse_on_off).
Definition output_parameter : parameter :=
  MkParameter None "OUTP {}" "OUTP?" (Some OnOff) None (Some P_parse_on_off).
Definition pulm_state_parameter : parameter :=
  MkParameter None "PULM:STAT {}" "PULM:STAT?" (Some OnOff) None (Some P_parse_on_off).
Definition pulm_polarity_parameter : parameter :=
  MkParameter None "PULM:POL {}" "PULM:POL?" None
              (Some [("Normal", "NORM"); ("Inverted", "INV")]) (Some P_parse_str).
Definition pulm_source_parameter : parameter :=
  MkParameter None "PULM:POL {}" "PULM:POL?" None
              (Some [("Internal", "INT"); ("External", "EXT")]) (Some P_parse_str).

(** [APSYN420.__init__]. *)
Definition __init__ (nm address : string) (close_after_every_command : bool)
  : stmt value unit :=
  VisaInstrument_init nm address ;;
  do h <- the_handle;
  update (set_visa_handle (Some (set_write_termination CRLF h))) ;;
  do h <- the_handle;
  update (set_visa_handle (Some (set_read_termination None h))) ;;
  ask_raw "FREQ?" ;;
  (if close_after_every_command then
     do h <- the_handle;
     handle_close h ;;
     update (set_visa_handle None) ;;
     def_ close_after ;; pure tt
   else pure tt) ;;
  add_parameter "frequency" frequency_parameter ;;
  add_parameter "blanking" blanking_parameter ;;
  add_parameter "output" output_parameter ;;
  add_parameter "pulm_state" pulm_state_parameter ;;
  add_parameter "pulm_polarity" pulm_polarity_parameter ;;
  add_parameter "pulm_source" pulm_source_parameter.

(** The object before [__init__] has run. *)
Definition blank : state := State "" "" None ∅ ∅ [].

(** [APSYN420(name, address, close_after_every_command)]. *)
Definition construct (nm address : string) (close_after_every_command : bool)
  : completion Empty_set value * state :=
  def_ (__init__ nm address close_after_every_command) blank.

(** Running a method call on an instance. *)
Definition run (m : stmt value unit) (st : state)
  : completion Empty_set value * state :=
  def_ m st.

End Driver.

(** ** Observations on runs *)

(** The instance with a new handle slot and more events, all else kept. *)
Definition extend (st : state) (evs : list event) (h : option handle) : state :=
  State (name st) (_address st) h (attrs st) (parameters st) (trace st ++ evs).

(** What the device and the operator see of a run: commands written,
    commands queried, pauses and console output, in order. *)
Inductive action :=
| Wrote (cmd : string)
| Asked (cmd : string)
| Slept (seconds : Z)
| Printed (msg : string).

Fixpoint actions (t : list event) : list action :=
  match t with
  | [] => []
  | EvWrite _ c :: t' => Wrote c :: actions t'
  | EvQuery _ c :: t' => Asked c :: actions t'
  | EvSleep n :: t' => Slept n :: actions t'
  | EvPrint m :: t' => Printed m :: actions t'
  | _ :: t' => actions t'
  end.

(** What a statement adds to the log when run from [st]. *)
Definition events_during {R A} (m : stmt R A) (st : state) : list event :=
  drop (length (trace st)) (trace (snd (m st))).

(** The two connection modes, read off the instance: in per-command mode the
    two raw operations are bound to the closing variants; in persistent mode
    nothing overrides the class and the handle is open. *)
Inductive mode := Persistent | PerCommand.

Definition in_mode (m : mode) (st : state) : Prop :=
  attrs st !! "write" = None /\ attrs st !! "ask" = None /\
  match m with
  | PerCommand =>
      attrs st !! "ask_raw" = Some (BoundMethod F_ask_raw_close) /\
      attrs st !! "write_raw" = Some (BoundMethod F_write_raw_close)
  | Persistent =>
      attrs st !! "ask_raw" = None /\ attrs st !! "write_raw" = None /\
      is_Some (visa_handle st)
  end.

Section Acquisition.

Variable tr : transport.

(** The handle in use once [acquire] has run, and what [acquire] logs. *)
Definition acquired (st : state) : handle :=
  match visa_handle st with
  | Some h => h
  | None => Handle (open_count (trace st)) (_address st)
                   (opened_write_termination tr) (opened_read_termination tr)
  end.

Definition acquire_events (st : state) : list event :=
  match visa_handle st with
  | Some _ => []
  | None => [EvOpen (open_count (trace st)) (_address st)]
  end.

(** The result code of the next write, and the reply to the next query. *)
Definition next_ret_code (st : state) (cmd : string) : Z :=
  snd (write_result tr (write_count (trace st)) cmd).

Definition next_reply (st : state) (cmd : string) : string :=
  query_result tr (query_count (trace st)) cmd.

End Acquisition.

(** The diagnostic entry a raw operation logs before transmission. *)
Definition log_line (what : string) (st : state) (cmd : string) : event :=
  EvLog (what +:+ " instrument " +:+ name st +:+ ": " +:+ cmd).

(** The two operations of the transaction layer as a caller invokes them:
    [self.write_raw(cmd)] and [self.ask_raw(cmd)]. *)
Definition send (tr : transport) (cmd : string) : stmt Empty_set value :=
  write_raw tr cmd.
Definition query (tr : transport) (cmd : string) : stmt Empty_set value :=
  ask_raw tr cmd.

(** Whether a parameter's validator lets a value through. *)
Definition accepts (p : parameter) (x : value) : bool :=
  match vals p with
  | Some v => validate v x
  | None => true
  end.

(** The four configuration writes of [set_external_reference], and the
    condition that the transport reports success for each of them when they
    are the next writes of the run. *)
Definition reference_commands (frequency : Q) : list string :=
  ["ROSC:SOUR EXT";
   "ROSC:EXT:FREQ " +:+ PyNum.format_d frequency;
   "ROSC:OUTP:STATE 1";
   "ROSC:OUTP:FREQ " +:+ PyNum.format_d frequency].

Definition writes_succeed (tr : transport) (st : state) (cmds : list string) : Prop :=
  forall (i : nat) (c : string),
    cmds !! i = Some c ->
    snd (write_result tr (write_count (trace st) + i) c) = 0.

(** ** Sample transports and instances *)

(** A transport whose writes all yield [ret_code] and whose queries all
    yield [reply]. *)
Definition steady (ret_code : Z) (reply : string) : transport :=
  Transport (fun _ c => (Z.of_nat (String.length c + 2), ret_code))
            (fun _ _ => reply) CRLF None.

(** A device that accepts every write, answers [0] to the first [k]
    queries of a run and [1] from then on. *)
Definition locking_after (k : nat) : transport :=
  Transport (fun _ c => (Z.of_nat (String.length c + 2), 0))
            (fun i _ => if (i <? k)%nat then "0" else "1") CRLF None.

Definition lab_address : string := "TCPIP0::192.168.15.100::inst0::INSTR".

(** The default of the constructor's [close_after_every_command] argument. *)
Definition close_after_every_command_default : bool := true.

(** A driver constructed with the defaults, hence in per-command mode, on a
    given transport. *)
Definition instance_on (tr : transport) : state :=
  snd (construct tr "apsyn" lab_address close_after_every_command_default).

(** Such a driver on a well-behaved transport, and the same driver after
    one query. *)
Definition fresh_instance : state := instance_on (steady 0 "1").

Definition after_query : state :=
  snd (run (ask_raw (steady 0 "1") "OUTP?" ;; pure tt) fresh_instance).

(** The per-command driver after a call of [dont_close_after]. *)
Definition after_dont_close_after : state :=
  snd (run dont_close_after fresh_instance).

(** ** Sequences of raw operations *)

(** One call on the transaction layer, and a caller's sequence of them. *)
Inductive op :=
| Send (cmd : string)
| Query (cmd : string).

Definition perform (tr : transport) (o : op) (st : state) : state :=
  match o with
  | Send c => snd (send tr c st)
  | Query c => snd (query tr c st)
  end.

Definition perform_all (tr : transport) (ops : list op) (st : state) : state :=
  fold_left (fun s o => perform tr o s) ops st.

(** Every session opened so far has been closed, except the stored one, and
    the stored one is the session opened last. *)
Definition balanced (st : state) : Prop :=
  match visa_handle st with
  | Some h =>
      open_count (trace st) = S (close_count (trace st)) /\
      open_count (trace st) = S (session h)
  | None => open_count (trace st) = close_count (trace st)
  end.

(** A statement that cannot run out of loop fuel. *)
Definition fuel_free {R A} (m : stmt R A) : Prop :=
  forall st : state, fst (m st) <> OutOfFuel.

(** A transport that accepts the first [k] writes of a run and reports
    [ret_code] for every later one. *)
Definition rejecting_from (k : nat) (ret_code : Z) : transport :=
  Transport (fun i c => (Z.of_nat (String.length c + 2),
                         if (i <? k)%nat then 0 else ret_code))
            (fun _ _ => "1") CRLF None.

(** A statement that leaves the instance as it is but for the handle slot
    and the log, which only grows. *)
Definition keeps_instance {R A} (m : stmt R A) : Prop :=
  forall st : state, exists evs h, snd (m st) = extend st evs h.

(** * Properties of the parsing helpers *)

Section StringFacts.
Import PyStr.

Lemma append_cons (c : ascii) (s t : string) :
  String c s +:+ t = String c (s +:+ t).
Proof. reflexivity. Qed.

Lemma append_nil_l (s : string) : "" +:+ s = s.
Proof. reflexivity. Qed.

Lemma append_nil_r (s : string) : s +:+ "" = s.
Proof.
  induction s as [|c s IH]; [reflexivity | now rewrite append_cons, IH].
Qed.

Lemma append_assoc (a b c : string) : (a +:+ b) +:+ c = a +:+ (b +:+ c).
Proof.
  induction a as [|x a IH]; [reflexivity | now rewrite !append_cons, IH].
Qed.

(** Left stripping splits off a prefix made of separator characters. *)
Lemma lstrip_by_split (sp : ascii -> bool) (s : string) :
  exists l, s = l +:+ lstrip_by sp s /\ all_chars sp l = true /\
            match first_char (lstrip_by sp s) with
            | Some c => sp c = false
            | None => True
            end.
Proof.
  induction s as [|c s (l & Hs & Hl & Hf)]; simpl.
  - exists ""; simpl; auto.
  - destruct (sp c) eqn:E.
    + exists (String c l); simpl. rewrite E, Hl, append_cons.
      split; [now f_equal | auto].
    + exists ""; simpl. rewrite E. auto.
Qed.

(** Right stripping splits off a suffix made of separator characters and
    leaves the first character in place. *)
Lemma rstrip_by_split (sp : ascii -> bool) (s : string) :
  exists r, s = rstrip_by sp s +:+ r /\ all_chars sp r = true /\
            match last_char (rstrip_by sp s) with
            | Some c => sp c = false
            | None => True
            end.
Proof.
  induction s as [|c s (r & Hs & Hr & Hf)]; simpl.
  - exists ""; simpl; auto.
  - destruct (rstrip_by sp s) as [|d u] eqn:E.
    + rewrite append_nil_l in Hs. subst r. destruct (sp c) eqn:Ec.
      * exists (String c s); simpl. rewrite Ec. auto.
      * exists s; simpl. rewrite Ec. auto.
    + exists r. split; [now rewrite append_cons, <- Hs |]. split; [exact Hr |].
      simpl in Hf |- *. exact Hf.
Qed.

Lemma rstrip_by_first (sp : ascii -> bool) (s : string) :
  match first_char (rstrip_by sp s) with
  | Some c => first_char s = Some c
  | None => True
  end.
Proof.
  destruct s as [|c s]; simpl; [exact I |].
  destruct (rstrip_by sp s); [destruct (sp c) |]; simpl; auto.
Qed.

Lemma strip_split (s : string) :
  exists l r, s = l +:+ strip s +:+ r /\
              all_chars isspace l = true /\ all_chars isspace r = true /\
              trimmed (strip s) = true.
Proof.
  unfold strip.
  destruct (lstrip_by_split isspace s) as (l & Hl & Hal & Hf).
  destruct (rstrip_by_split isspace (lstrip_by isspace s)) as (r & Hr & Har & Hla).
  exists l, r. split; [now rewrite <- Hr |]. split; [exact Hal |]. split; [exact Har |].
  unfold trimmed.
  pose proof (rstrip_by_first isspace (lstrip_by isspace s)) as H1.
  destruct (first_char (rstrip_by isspace (lstrip_by isspace s))) as [a|]; [|reflexivity].
  destruct (last_char (rstrip_by isspace (lstrip_by isspace s))) as [b|]; [|reflexivity].
  rewrite H1 in Hf. now rewrite Hf, Hla.
Qed.

Lemma upper_length (s : string) : String.length (upper s) = String.length s.
Proof.
  unfold upper. induction s as [|c s IH]; simpl; [reflexivity | now rewrite IH].
Qed.

Lemma upper_get (s : string) (i : nat) :
  String.get i (upper s) = upper_char <$> String.get i s.
Proof.
  unfold upper. revert i; induction s as [|c s IH]; intros [|i]; simpl; auto.
Qed.

(** [upper_char] sends [a]..[z] to [A]..[Z] and fixes everything else. *)
Lemma upper_char_code (c : ascii) :
  code (upper_char c) =
    if ((97 <=? code c) && (code c <=? 122))%nat then (code c - 32)%nat else code c.
Proof.
  unfold upper_char, islower.
  destruct ((97 <=? code c) && (code c <=? 122))%nat eqn:E; [|reflexivity].
  unfold code in *. apply nat_ascii_embedding.
  pose proof (nat_ascii_bounded c). lia.
Qed.

End StringFacts.

(** C6. [parse_on_off] looks at the first character only: a leading [0]
    gives [off], a leading [1] gives [on], and any other string, the empty
    one included, comes back unchanged, as [3 extra] does. *)
Theorem parse_on_off_first_char :
  (forall s : string,
     parse_on_off s =
       match PyStr.first_char s with
       | Some "0"%char => "off"
       | Some "1"%char => "on"
       | _ => s
       end) /\
  parse_on_off "3 extra" = "3 extra" /\
  parse_on_off "" = "" /\
  parse_on_off "0" = "off" /\ parse_on_off "1" = "on".
Proof.
  split; [|repeat split].
  intros [|c s]; [reflexivity |].
  unfold parse_on_off, PyStr.startswith. cbn [String.prefix PyStr.first_char].
  destruct (ascii_dec "0" c) as [<-|H0].
  - now destruct s.
  - destruct (ascii_dec "1" c) as [<-|H1]; [now destruct s |].
    destruct c as [[] [] [] [] [] [] [] []]; try reflexivity; congruence.
Qed.

(** C8. [parse_str] gives the input with the whitespace at both ends removed
    and every character of the rest mapped to upper case: the input is
    [l ++ core ++ r] with [l] and [r] all whitespace and [core] without
    whitespace at either end, and the result is [core] in upper case, of the
    same length as [core], character by character.  Two spaces, [norm], a
    space and a newline give [NORM]. *)
Theorem parse_str_trims_and_uppercases :
  (forall s : string,
     exists l core r,
       s = l +:+ core +:+ r /\
       PyStr.all_chars PyStr.isspace l = true /\
       PyStr.all_chars PyStr.isspace r = true /\
       PyStr.trimmed core = true /\
       parse_str s = PyStr.upper core /\
       String.length (parse_str s) = String.length core /\
       forall i, String.get i (parse_str s) = PyStr.upper_char <$> String.get i core) /\
  (forall c : ascii,
     PyStr.code (PyStr.upper_char c) =
       if ((97 <=? PyStr.code c) && (PyStr.code c <=? 122))%nat
       then (PyStr.code c - 32)%nat else PyStr.code c) /\
  parse_str (String " " (String " " ("norm " +:+ String (ascii_of_nat 10) ""))) = "NORM".
Proof.
  split; [|split; [exact upper_char_code | reflexivity]].
  intros s. destruct (strip_split s) as (l & r & Hs & Hl & Hr & Ht).
  exists l, (PyStr.strip s), r. unfold parse_str.
  repeat split; auto using upper_length, upper_get.
Qed.

(** * The transaction layer *)

Section Counting.

Lemma count_events_app (p : event -> bool) (t u : list event) :
  count_events p (t ++ u) = (count_events p t + count_events p u)%nat.
Proof. unfold count_events. now rewrite List.filter_app, length_app. Qed.

Lemma actions_app (t u : list event) : actions (t ++ u) = actions t ++ actions u.
Proof.
  induction t as [|e t IH]; [reflexivity |].
  destruct e; simpl; now rewrite IH.
Qed.

Lemma events_during_extend {R A} (m : stmt R A) (st : state) out evs h :
  m st = (out, extend st evs h) -> events_during m st = evs.
Proof.
  intros E. unfold events_during. rewrite E. simpl. apply drop_app_length.
Qed.

Lemma extend_extend st evs h evs' h' :
  extend (extend st evs h) evs' h' = extend st (evs ++ evs') h'.
Proof. unfold extend; simpl. now rewrite <- app_assoc. Qed.

Lemma extend_nil st : extend st [] (visa_handle st) = st.
Proof. destruct st; unfold extend; simpl. now rewrite app_nil_r. Qed.

End Counting.

(** Proof steps shared by the lemmas on the raw operations. *)
Ltac counts :=
  unfold open_count, write_count, query_count, close_count in *;
  rewrite ?count_events_app; simpl; rewrite ?Nat.add_0_r.

Ltac unfold_layer :=
  unfold write_raw_close, ask_raw_close, VisaInstrument_write_raw,
    VisaInstrument_ask_raw, log_debug, acquire, the_handle, handle_write,
    handle_query, handle_close, open_resource, check_error, bind, read,
    update, emit, pure, raise, return_, extend, acquired, acquire_events,
    next_ret_code, next_reply, log_line, load_global in *.

Ltac finish_state :=
  unfold emit_event, set_visa_handle; simpl; rewrite <- ?app_assoc; reflexivity.

Ltac tally :=
  unfold acquire_events, log_line, write_count, query_count, open_count,
    close_count, count_events;
  try match goal with |- context [visa_handle ?st] => destruct (visa_handle st) end;
  reflexivity.

Section Transactions.

Variable tr : transport.

(** [write_raw_close] when the write reports success. *)
Lemma write_raw_close_ok (st : state) (cmd : string) :
  next_ret_code tr st cmd = 0 ->
  write_raw_close tr cmd st =
    (Normal tt,
     extend st (log_line "Writing to" st cmd :: acquire_events st ++
                [EvWrite (session (acquired tr st)) cmd;
                 EvClose (session (acquired tr st))]) None).
Proof.
  intros Hrc.
  destruct st as [nm a [h|] at_ ps t]; unfold_layer; simpl in *; counts;
    destruct (write_result tr (count_events is_write t) cmd) as [nr rc];
    simpl in Hrc; subst rc; simpl; finish_state.
Qed.

(** [write_raw_close] when the write reports an error code: the exception
    leaves before the close, and the handle stays in place. *)
Lemma write_raw_close_error (st : state) (cmd : string) :
  next_ret_code tr st cmd <> 0 ->
  write_raw_close tr cmd st =
    (Raised (VisaIOError (next_ret_code tr st cmd)),
     extend st (log_line "Writing to" st cmd :: acquire_events st ++
                [EvWrite (session (acquired tr st)) cmd])
            (Some (acquired tr st))).
Proof.
  intros Hrc.
  destruct st as [nm a [h|] at_ ps t]; unfold_layer; simpl in *; counts;
    destruct (write_result tr (count_events is_write t) cmd) as [nr rc];
    simpl in Hrc |- *; apply Z.eqb_neq in Hrc; rewrite Hrc; finish_state.
Qed.

(** [ask_raw_close] leaves through its [return]: the statements after it
    do not run. *)
Lemma ask_raw_close_returns (st : state) (cmd : string) :
  ask_raw_close tr cmd st =
    (Returned (VStr (next_reply tr st cmd)),
     extend st (log_line "Querying" st cmd :: acquire_events st ++
                [EvQuery (session (acquired tr st)) cmd])
            (Some (acquired tr st))).
Proof.
  destruct st as [nm a [h|] at_ ps t]; unfold_layer; simpl in *; counts;
    finish_state.
Qed.

(** The base variants on an open handle. *)
Lemma VisaInstrument_write_raw_ok (st : state) (h : handle) (cmd : string) :
  visa_handle st = Some h ->
  next_ret_code tr st cmd = 0 ->
  VisaInstrument_write_raw tr cmd st =
    (Normal tt,
     extend st [log_line "Writing to" st cmd; EvWrite (session h) cmd] (Some h)).
Proof.
  intros Hh Hrc.
  destruct st as [nm a h0 at_ ps t]; simpl in Hh; subst h0;
    unfold_layer; simpl in *; counts;
    destruct (write_result tr (count_events is_write t) cmd) as [nr rc];
    simpl in Hrc; subst rc; simpl; finish_state.
Qed.

Lemma VisaInstrument_write_raw_error (st : state) (h : handle) (cmd : string) :
  visa_handle st = Some h ->
  next_ret_code tr st cmd <> 0 ->
  VisaInstrument_write_raw tr cmd st =
    (Raised (VisaIOError (next_ret_code tr st cmd)),
     extend st [log_line "Writing to" st cmd; EvWrite (session h) cmd] (Some h)).
Proof.
  intros Hh Hrc.
  destruct st as [nm a h0 at_ ps t]; simpl in Hh; subst h0;
    unfold_layer; simpl in *; counts;
    destruct (write_result tr (count_events is_write t) cmd) as [nr rc];
    simpl in Hrc |- *; apply Z.eqb_neq in Hrc; rewrite Hrc; finish_state.
Qed.

Lemma VisaInstrument_ask_raw_returns (st : state) (h : handle) (cmd : string) :
  visa_handle st = Some h ->
  VisaInstrument_ask_raw tr cmd st =
    (Returned (VStr (next_reply tr st cmd)),
     extend st [log_line "Querying" st cmd; EvQuery (session h) cmd] (Some h)).
Proof.
  intros Hh.
  destruct st as [nm a h0 at_ ps t]; simpl in Hh; subst h0;
    unfold_layer; simpl in *; counts; finish_state.
Qed.

(** Without a handle the base variants fail on the attribute access. *)
Lemma VisaInstrument_write_raw_no_handle (st : state) (cmd : string) :
  visa_handle st = None ->
  VisaInstrument_write_raw tr cmd st =
    (Raised AttributeError, extend st [log_line "Writing to" st cmd] None).
Proof.
  intros Hh.
  destruct st as [nm a h0 at_ ps t]; simpl in Hh; subst h0;
    unfold_layer; simpl in *; finish_state.
Qed.

(** *** Dispatch through the instance attributes *)

Lemma in_mode_extend (m : mode) (st : state) evs h :
  in_mode m st -> (m = Persistent -> is_Some h) -> in_mode m (extend st evs h).
Proof.
  unfold in_mode, extend; simpl. intros (Hw & Ha & Hm) Hh.
  split; [exact Hw |]. split; [exact Ha |].
  destruct m; [|exact Hm].
  destruct Hm as (H1 & H2 & _). auto.
Qed.

(** In per-command mode, [self.write_raw] is [write_raw_close]. *)
Lemma write_raw_per_command {R} (st : state) (cmd : string) :
  in_mode PerCommand st ->
  write_raw (R := R) tr cmd st = def_ (write_raw_close tr cmd) st.
Proof.
  intros (_ & _ & _ & Hw). unfold write_raw, call_attr, bind, read.
  now rewrite Hw.
Qed.

(** In per-command mode, [self.ask_raw] is [ask_raw_close]. *)
Lemma ask_raw_per_command {R} (st : state) (cmd : string) :
  in_mode PerCommand st ->
  ask_raw (R := R) tr cmd st = def_ (ask_raw_close tr cmd) st.
Proof.
  intros (_ & _ & Ha & _). unfold ask_raw, call_attr, bind, read.
  now rewrite Ha.
Qed.

Lemma write_raw_persistent {R} (st : state) (cmd : string) :
  in_mode Persistent st ->
  write_raw (R := R) tr cmd st = def_ (VisaInstrument_write_raw tr cmd) st.
Proof.
  intros (_ & _ & _ & Hw & _). unfold write_raw, call_attr, bind, read.
  now rewrite Hw.
Qed.

Lemma ask_raw_persistent {R} (st : state) (cmd : string) :
  in_mode Persistent st ->
  ask_raw (R := R) tr cmd st = def_ (VisaInstrument_ask_raw tr cmd) st.
Proof.
  intros (_ & _ & Ha & _). unfold ask_raw, call_attr, bind, read.
  now rewrite Ha.
Qed.

(** [self.write(cmd)] in either mode: one command on the wire; on success
    the mode is kept. *)
Lemma write_in_mode {R} (m : mode) (st : state) (cmd : string) :
  in_mode m st ->
  exists out evs h,
    write (R := R) tr cmd st = (out, extend st evs h) /\
    actions evs = [Wrote cmd] /\
    write_count evs = 1%nat /\ query_count evs = 0%nat /\
    (next_ret_code tr st cmd = 0 ->
     out = Normal VNone /\ in_mode m (extend st evs h)) /\
    (next_ret_code tr st cmd <> 0 ->
     out = Raised (VisaIOError (next_ret_code tr st cmd))).
Proof.
  intros Hm. pose proof Hm as (Hw & _ & Hrest).
  unfold write, call_attr, bind, read. rewrite Hw.
  unfold Instrument_write, def_, bind.
  destruct m.
  - destruct Hrest as (_ & _ & [h Hh]).
    rewrite write_raw_persistent by exact Hm. unfold def_.
    destruct (Z.eq_dec (next_ret_code tr st cmd) 0) as [Hrc|Hrc].
    + rewrite (VisaInstrument_write_raw_ok st h cmd Hh Hrc).
      eexists _, _, _. split; [reflexivity |].
      do 3 (split; [reflexivity |]).
      split; [intros _ | congruence].
      split; [reflexivity | apply in_mode_extend; eauto].
    + rewrite (VisaInstrument_write_raw_error st h cmd Hh Hrc).
      eexists _, _, _. split; [reflexivity |].
      do 3 (split; [reflexivity |]).
      split; [congruence | reflexivity].
  - rewrite write_raw_per_command by exact Hm. unfold def_.
    destruct (Z.eq_dec (next_ret_code tr st cmd) 0) as [Hrc|Hrc].
    + rewrite (write_raw_close_ok st cmd Hrc).
      eexists _, _, _. split; [reflexivity |].
      do 3 (split; [tally |]).
      split; [intros _ | congruence].
      split; [reflexivity | apply in_mode_extend; [exact Hm | discriminate]].
    + rewrite (write_raw_close_error st cmd Hrc).
      eexists _, _, _. split; [reflexivity |].
      do 3 (split; [tally |]).
      split; [congruence | reflexivity].
Qed.

(** [self.ask(cmd)] in either mode: one query on the wire, its reply as
    the value, the mode kept. *)
Lemma ask_in_mode {R} (m : mode) (st : state) (cmd : string) :
  in_mode m st ->
  exists evs h,
    ask (R := R) tr cmd st =
      (Normal (VStr (next_reply tr st cmd)), extend st evs h) /\
    actions evs = [Asked cmd] /\
    write_count evs = 0%nat /\ query_count evs = 1%nat /\
    in_mode m (extend st evs h).
Proof.
  intros Hm. pose proof Hm as (_ & Ha & Hrest).
  unfold ask, call_attr, bind, read. rewrite Ha.
  unfold Instrument_ask, def_, bind.
  destruct m.
  - destruct Hrest as (_ & _ & [h Hh]).
    rewrite ask_raw_persistent by exact Hm. unfold def_.
    rewrite (VisaInstrument_ask_raw_returns st h cmd Hh).
    eexists _, _. split; [reflexivity |].
    do 3 (split; [reflexivity |]). apply in_mode_extend; eauto.
  - rewrite ask_raw_per_command by exact Hm. unfold def_.
    rewrite (ask_raw_close_returns st cmd).
    eexists _, _. split; [reflexivity |].
    do 3 (split; [tally |]). apply in_mode_extend; [exact Hm | discriminate].
Qed.

(** How many handles one raw operation opens, by mode: per-command mode
    opens one exactly when none is stored, persistent mode never does. *)
Lemma send_open_count (m : mode) (st : state) (cmd : string) :
  in_mode m st ->
  open_count (events_during (send tr cmd) st) =
    match m, visa_handle st with
    | PerCommand, None => 1%nat
    | _, _ => 0%nat
    end.
Proof.
  intros Hm. unfold events_during, send.
  destruct (Z.eq_dec (next_ret_code tr st cmd) 0) as [Hrc|Hrc]; destruct m.
  - pose proof Hm as (_ & _ & _ & _ & [h Hh]).
    rewrite write_raw_persistent by exact Hm. unfold def_.
    rewrite (VisaInstrument_write_raw_ok st h cmd Hh Hrc). simpl.
    now rewrite drop_app_length.
  - rewrite write_raw_per_command by exact Hm. unfold def_.
    rewrite (write_raw_close_ok st cmd Hrc). simpl.
    rewrite drop_app_length. tally.
  - pose proof Hm as (_ & _ & _ & _ & [h Hh]).
    rewrite write_raw_persistent by exact Hm. unfold def_.
    rewrite (VisaInstrument_write_raw_error st h cmd Hh Hrc). simpl.
    now rewrite drop_app_length.
  - rewrite write_raw_per_command by exact Hm. unfold def_.
    rewrite (write_raw_close_error st cmd Hrc). simpl.
    rewrite drop_app_length. tally.
Qed.

Lemma query_open_count (m : mode) (st : state) (cmd : string) :
  in_mode m st ->
  open_count (events_during (query tr cmd) st) =
    match m, visa_handle st with
    | PerCommand, None => 1%nat
    | _, _ => 0%nat
    end.
Proof.
  intros Hm. unfold events_during, query. destruct m.
  - pose proof Hm as (_ & _ & _ & _ & [h Hh]).
    rewrite ask_raw_persistent by exact Hm. unfold def_.
    rewrite (VisaInstrument_ask_raw_returns st h cmd Hh). simpl.
    now rewrite drop_app_length.
  - rewrite ask_raw_per_command by exact Hm. unfold def_.
    rewrite (ask_raw_close_returns st cmd). simpl.
    rewrite drop_app_length. tally.
Qed.

End Transactions.

(** C1 (amended). In per-command mode a [send] whose write reports no error
    logs the command, opens a handle bound to the configured address exactly
    when none is stored, writes the command once, closes the handle once and
    stores no handle on return: the close count is 1, and the open count is
    1 when no handle was stored on entry and 0 when one was. *)
Theorem send_per_command_closes (tr : transport) (st : state) (cmd : string) :
  in_mode PerCommand st ->
  next_ret_code tr st cmd = 0 ->
  let s := session (acquired tr st) in
  let evs := events_during (send tr cmd) st in
  send tr cmd st = (Normal VNone, extend st evs None) /\
  evs = log_line "Writing to" st cmd :: acquire_events st
          ++ [EvWrite s cmd; EvClose s] /\
  visa_handle (snd (send tr cmd st)) = None /\
  write_count evs = 1%nat /\
  close_count evs = 1%nat /\
  open_count evs = match visa_handle st with Some _ => 0%nat | None => 1%nat end.
Proof.
  intros Hm Hrc s evs.
  assert (E : send tr cmd st =
              (Normal VNone,
               extend st (log_line "Writing to" st cmd :: acquire_events st
                            ++ [EvWrite s cmd; EvClose s]) None)).
  { unfold send. rewrite write_raw_per_command by exact Hm.
    unfold def_. now rewrite (write_raw_close_ok tr st cmd Hrc). }
  assert (Eevs : evs = log_line "Writing to" st cmd :: acquire_events st
                         ++ [EvWrite s cmd; EvClose s]).
  { unfold evs. exact (events_during_extend _ _ _ _ _ E). }
  rewrite E, Eevs. split; [reflexivity |]. split; [reflexivity |].
  split; [reflexivity |]. repeat split; tally.
Qed.

Lemma send_per_command_closes_witness :
  in_mode PerCommand fresh_instance /\
  next_ret_code (steady 0 "1") fresh_instance "OUTP 1" = 0 /\
  let s := session (acquired (steady 0 "1") fresh_instance) in
  let evs := events_during (send (steady 0 "1") "OUTP 1") fresh_instance in
  send (steady 0 "1") "OUTP 1" fresh_instance
    = (Normal VNone, extend fresh_instance evs None) /\
  evs = log_line "Writing to" fresh_instance "OUTP 1"
          :: acquire_events fresh_instance ++ [EvWrite s "OUTP 1"; EvClose s] /\
  visa_handle (snd (send (steady 0 "1") "OUTP 1" fresh_instance)) = None /\
  write_count evs = 1%nat /\
  close_count evs = 1%nat /\
  open_count evs = match visa_handle fresh_instance with Some _ => 0%nat | None => 1%nat end.
Proof.
  assert (Hm : in_mode PerCommand fresh_instance)
    by (vm_compute; repeat split; reflexivity).
  split; [exact Hm |]. split; [reflexivity |].
  exact (send_per_command_closes (steady 0 "1") fresh_instance "OUTP 1" Hm eq_refl).
Defined.

(** C1 (as stated) fails on a driver whose previous call was a query: the
    handle that query left open is reused, so this send opens nothing and
    its open count is 0 while its close count is 1. *)
Lemma send_reusing_handle_opens_nothing :
  in_mode PerCommand after_query /\
  next_ret_code (steady 0 "1") after_query "OUTP 1" = 0 /\
  open_count (events_during (send (steady 0 "1") "OUTP 1") after_query) = 0%nat /\
  close_count (events_during (send (steady 0 "1") "OUTP 1") after_query) = 1%nat /\
  ~ (open_count (events_during (send (steady 0 "1") "OUTP 1") after_query) = 1%nat /\
     close_count (events_during (send (steady 0 "1") "OUTP 1") after_query) = 1%nat).
Proof.
  vm_compute. repeat split; try reflexivity. intros [H _]; discriminate H.
Qed.

(** X1. On an error code the exception leaves [send] before the close: the
    call ends with the error carrying that code, the handle stays stored
    and nothing is closed. *)
Lemma send_per_command_error_keeps_handle (tr : transport) (st : state) (cmd : string) :
  in_mode PerCommand st ->
  next_ret_code tr st cmd <> 0 ->
  fst (send tr cmd st) = Raised (VisaIOError (next_ret_code tr st cmd)) /\
  visa_handle (snd (send tr cmd st)) = Some (acquired tr st) /\
  close_count (events_during (send tr cmd) st) = 0%nat.
Proof.
  intros Hm Hrc.
  assert (E : send tr cmd st =
              (Raised (VisaIOError (next_ret_code tr st cmd)),
               extend st (log_line "Writing to" st cmd :: acquire_events st
                            ++ [EvWrite (session (acquired tr st)) cmd])
                      (Some (acquired tr st)))).
  { unfold send. rewrite write_raw_per_command by exact Hm.
    unfold def_. now rewrite (write_raw_close_error tr st cmd Hrc). }
  rewrite (events_during_extend _ _ _ _ _ E), E.
  repeat split; tally.
Qed.

Lemma send_per_command_error_keeps_handle_witness :
  in_mode PerCommand (instance_on (steady (-1073807339) "1")) /\
  next_ret_code (steady (-1073807339) "1")
                (instance_on (steady (-1073807339) "1")) "OUTP 1" <> 0 /\
  fst (send (steady (-1073807339) "1") "OUTP 1"
            (instance_on (steady (-1073807339) "1")))
    = Raised (VisaIOError (next_ret_code (steady (-1073807339) "1")
                             (instance_on (steady (-1073807339) "1")) "OUTP 1")) /\
  visa_handle (snd (send (steady (-1073807339) "1") "OUTP 1"
                         (instance_on (steady (-1073807339) "1"))))
    = Some (acquired (steady (-1073807339) "1")
                     (instance_on (steady (-1073807339) "1"))) /\
  close_count (events_during (send (steady (-1073807339) "1") "OUTP 1")
                             (instance_on (steady (-1073807339) "1"))) = 0%nat.
Proof.
  assert (Hm : in_mode PerCommand (instance_on (steady (-1073807339) "1")))
    by (vm_compute; repeat split; reflexivity).
  assert (Hrc : next_ret_code (steady (-1073807339) "1")
                  (instance_on (steady (-1073807339) "1")) "OUTP 1" <> 0)
    by discriminate.
  split; [exact Hm |]. split; [exact Hrc |].
  exact (send_per_command_error_keeps_handle (steady (-1073807339) "1")
           (instance_on (steady (-1073807339) "1")) "OUTP 1" Hm Hrc).
Defined.

(** C2 (amended). In per-command mode a [query] returns the transport's
    reply and leaves through the [return] statement, so the close after it
    never runs: on return the handle is stored and open, the close count is
    0, and the open count is 1 when no handle was stored on entry and 0 when
    one was. *)
Theorem query_per_command_leaves_open (tr : transport) (st : state) (cmd : string) :
  in_mode PerCommand st ->
  let h := acquired tr st in
  let evs := events_during (query tr cmd) st in
  query tr cmd st = (Normal (VStr (next_reply tr st cmd)), extend st evs (Some h)) /\
  fst (ask_raw_close tr cmd st) = Returned (VStr (next_reply tr st cmd)) /\
  evs = log_line "Querying" st cmd :: acquire_events st
          ++ [EvQuery (session h) cmd] /\
  visa_handle (snd (query tr cmd st)) = Some h /\
  query_count evs = 1%nat /\
  close_count evs = 0%nat /\
  open_count evs = match visa_handle st with Some _ => 0%nat | None => 1%nat end.
Proof.
  intros Hm h evs.
  assert (E : query tr cmd st =
              (Normal (VStr (next_reply tr st cmd)),
               extend st (log_line "Querying" st cmd :: acquire_events st
                            ++ [EvQuery (session h) cmd]) (Some h))).
  { unfold query. rewrite ask_raw_per_command by exact Hm.
    unfold def_. now rewrite (ask_raw_close_returns tr st cmd). }
  assert (Eevs : evs = log_line "Querying" st cmd :: acquire_events st
                         ++ [EvQuery (session h) cmd]).
  { unfold evs. exact (events_during_extend _ _ _ _ _ E). }
  rewrite E, Eevs, ask_raw_close_returns.
  do 4 (split; [reflexivity |]). repeat split; tally.
Qed.

Lemma query_per_command_leaves_open_witness :
  in_mode PerCommand fresh_instance /\
  let h := acquired (steady 0 "1") fresh_instance in
  let evs := events_during (query (steady 0 "1") "OUTP?") fresh_instance in
  query (steady 0 "1") "OUTP?" fresh_instance
    = (Normal (VStr (next_reply (steady 0 "1") fresh_instance "OUTP?")),
       extend fresh_instance evs (Some h)) /\
  fst (ask_raw_close (steady 0 "1") "OUTP?" fresh_instance)
    = Returned (VStr (next_reply (steady 0 "1") fresh_instance "OUTP?")) /\
  evs = log_line "Querying" fresh_instance "OUTP?"
          :: acquire_events fresh_instance ++ [EvQuery (session h) "OUTP?"] /\
  visa_handle (snd (query (steady 0 "1") "OUTP?" fresh_instance)) = Some h /\
  query_count evs = 1%nat /\
  close_count evs = 0%nat /\
  open_count evs = match visa_handle fresh_instance with Some _ => 0%nat | None => 1%nat end.
Proof.
  assert (Hm : in_mode PerCommand fresh_instance)
    by (vm_compute; repeat split; reflexivity).
  split; [exact Hm |].
  exact (query_per_command_leaves_open (steady 0 "1") fresh_instance "OUTP?" Hm).
Defined.

(** C2 (as stated) fails on the second of two queries in a row: the first
    one left its handle open, so the second opens nothing and its open
    count is 0. *)
Lemma query_reusing_handle_opens_nothing :
  in_mode PerCommand after_query /\
  visa_handle after_query = Some (Handle 1 lab_address CRLF None) /\
  open_count (events_during (query (steady 0 "1") "OUTP?") after_query) = 0%nat /\
  ~ open_count (events_during (query (steady 0 "1") "OUTP?") after_query) = 1%nat.
Proof.
  vm_compute. repeat split; try reflexivity. intros H; discriminate H.
Qed.

(** [dont_close_after] assigns [ask_raw] and [write]; [write_raw] keeps
    whatever it was bound to. *)
Lemma dont_close_after_bindings (st : state) :
  let st' := snd (dont_close_after st) in
  attrs st' !! "write_raw" = attrs st !! "write_raw" /\
  attrs st' !! "ask_raw" = Some (PlainFunction F_VisaInstrument_ask_raw) /\
  attrs st' !! "write" = Some (PlainFunction F_VisaInstrument_write_raw).
Proof.
  unfold dont_close_after, bind, update, load_global, set_attr; simpl.
  repeat split.
  - rewrite !lookup_insert_ne by discriminate. reflexivity.
  - rewrite lookup_insert_ne by discriminate. apply lookup_insert_eq.
  - apply lookup_insert_eq.
Qed.

(** C3 (evaluated). On a per-command driver [dont_close_after] leaves
    [write_raw] bound to the closing variant and stores plain functions
    under [ask_raw] and [write].  So a send still goes through
    [write_raw_close], which closes the handle and stores none, while a
    query and a [write] fail on the call itself, with nothing sent. *)
Theorem dont_close_after_keeps_closing_send
    (tr : transport) (st : state) (cmd : string) :
  in_mode PerCommand st ->
  let st' := snd (run dont_close_after st) in
  attrs st' !! "write_raw" = Some (BoundMethod F_write_raw_close) /\
  attrs st' !! "ask_raw" = Some (PlainFunction F_VisaInstrument_ask_raw) /\
  attrs st' !! "write" = Some (PlainFunction F_VisaInstrument_write_raw) /\
  send tr cmd st' = def_ (write_raw_close tr cmd) st' /\
  (next_ret_code tr st' cmd = 0 ->
   close_count (events_during (send tr cmd) st') = 1%nat /\
   visa_handle (snd (send tr cmd st')) = None) /\
  query tr cmd st' = (Raised TypeError, st') /\
  write (R := Empty_set) tr cmd st' = (Raised TypeError, st').
Proof.
  intros Hm st'. pose proof Hm as (_ & _ & _ & Hw).
  destruct (dont_close_after_bindings st) as (B1 & B2 & B3).
  assert (Est : st' = snd (dont_close_after st)) by reflexivity.
  rewrite <- Est in B1, B2, B3. rewrite Hw in B1.
  assert (Es : send tr cmd st' = def_ (write_raw_close tr cmd) st').
  { unfold send, write_raw, call_attr, bind, read. now rewrite B1. }
  do 3 (split; [assumption |]). split; [exact Es |]. split; [| split].
  - intros Hrc. unfold events_during. rewrite Es. unfold def_.
    rewrite (write_raw_close_ok tr st' cmd Hrc). simpl.
    rewrite drop_app_length. split; [tally | reflexivity].
  - unfold query, ask_raw, call_attr, bind, read. now rewrite B2.
  - unfold write, call_attr, bind, read. now rewrite B3.
Qed.

Lemma dont_close_after_keeps_closing_send_witness :
  in_mode PerCommand fresh_instance /\
  next_ret_code (steady 0 "1") after_dont_close_after "OUTP 1" = 0 /\
  attrs after_dont_close_after !! "write_raw" = Some (BoundMethod F_write_raw_close) /\
  close_count (events_during (send (steady 0 "1") "OUTP 1") after_dont_close_after)
    = 1%nat /\
  visa_handle (snd (send (steady 0 "1") "OUTP 1" after_dont_close_after)) = None /\
  events_during (send (steady 0 "1") "OUTP 1") after_dont_close_after
    = [EvLog "Writing to instrument apsyn: OUTP 1"; EvOpen 1 lab_address;
       EvWrite 1 "OUTP 1"; EvClose 1] /\
  fst (query (steady 0 "1") "OUTP?" after_dont_close_after) = Raised TypeError /\
  fst (write (R := Empty_set) (steady 0 "1") "OUTP 1" after_dont_close_after)
    = Raised TypeError.
Proof.
  assert (Hm : in_mode PerCommand fresh_instance)
    by (vm_compute; repeat split; reflexivity).
  destruct (dont_close_after_keeps_closing_send (steady 0 "1") fresh_instance
              "OUTP 1" Hm) as (B1 & _ & _ & _ & Hc & _).
  destruct (dont_close_after_keeps_closing_send (steady 0 "1") fresh_instance
              "OUTP?" Hm) as (_ & _ & _ & _ & _ & Hq & _).
  destruct (Hc eq_refl) as [Hc1 Hc2].
  split; [exact Hm |]. split; [reflexivity |]. split; [exact B1 |].
  split; [exact Hc1 |]. split; [exact Hc2 |]. split; [reflexivity |].
  split; [| reflexivity].
  unfold after_dont_close_after. now rewrite Hq.
Defined.

(** * The reference-lock routine *)

Section Sequencing.

Lemma bind_normal {R A B} (m : stmt R A) (k : A -> stmt R B) st a st' :
  m st = (Normal a, st') -> bind m k st = k a st'.
Proof. unfold bind. now intros ->. Qed.

Lemma bind_raised {R A B} (m : stmt R A) (k : A -> stmt R B) st e st' :
  m st = (Raised e, st') -> bind m k st = (Raised e, st').
Proof. unfold bind. now intros ->. Qed.

Lemma emit_extend {R} (e : event) (st : state) :
  emit (R := R) e st = (Normal tt, extend st [e] (visa_handle st)).
Proof. reflexivity. Qed.

Lemma load_global_bound {R} (n : string) (st : state) :
  bool_decide (n ∈ module_globals) = true ->
  load_global (R := R) n st = (Normal tt, st).
Proof. unfold load_global. now intros ->. Qed.

Lemma in_mode_emit (m : mode) (st : state) (evs : list event) :
  in_mode m st -> in_mode m (extend st evs (visa_handle st)).
Proof.
  intros Hm. apply in_mode_extend; [exact Hm |].
  intros ->. now destruct Hm as (_ & _ & _ & _ & H).
Qed.

Lemma write_count_extend st evs h :
  write_count (trace (extend st evs h)) = (write_count (trace st) + write_count evs)%nat.
Proof. apply count_events_app. Qed.

Lemma query_count_extend st evs h :
  query_count (trace (extend st evs h)) = (query_count (trace st) + query_count evs)%nat.
Proof. apply count_events_app. Qed.

End Sequencing.

Section Reference.

Variable tr : transport.

(** One successful [self.write] inside a method body. *)
Lemma write_step {R A} (m : mode) (st : state) (cmd : string) (k : stmt R A) :
  in_mode m st ->
  next_ret_code tr st cmd = 0 ->
  exists evs h,
    (write tr cmd ;; k) st = k (extend st evs h) /\
    actions evs = [Wrote cmd] /\
    write_count evs = 1%nat /\ query_count evs = 0%nat /\
    in_mode m (extend st evs h).
Proof.
  intros Hm Hrc.
  destruct (write_in_mode tr (R := R) m st cmd Hm)
    as (out & evs & h & E & Ha & Hw & Hq & Hok & _).
  destruct (Hok Hrc) as [-> Hm'].
  exists evs, h. split; [exact (bind_normal _ _ _ _ _ E) | auto].
Qed.

(** The four configuration writes, when the transport accepts them. *)
Lemma reference_writes {A} (m : mode) (st : state) (f : Q) (k : stmt value A) :
  in_mode m st ->
  writes_succeed tr st (reference_commands f) ->
  exists evs h,
    (write tr "ROSC:SOUR EXT" ;;
     write tr ("ROSC:EXT:FREQ " +:+ PyNum.format_d f) ;;
     write tr "ROSC:OUTP:STATE 1" ;;
     write tr ("ROSC:OUTP:FREQ " +:+ PyNum.format_d f) ;; k) st
      = k (extend st evs h) /\
    actions evs = Wrote <$> reference_commands f /\
    query_count evs = 0%nat /\
    in_mode m (extend st evs h).
Proof.
  intros Hm Hok. unfold writes_succeed, reference_commands in Hok.
  assert (H0 : next_ret_code tr st "ROSC:SOUR EXT" = 0).
  { unfold next_ret_code. rewrite <- (Nat.add_0_r (write_count _)).
    now apply Hok. }
  destruct (write_step m st _ (write tr ("ROSC:EXT:FREQ " +:+ PyNum.format_d f) ;;
     write tr "ROSC:OUTP:STATE 1" ;;
     write tr ("ROSC:OUTP:FREQ " +:+ PyNum.format_d f) ;; k) Hm H0)
    as (e1 & h1 & E1 & A1 & W1 & Q1 & M1).
  rewrite E1. clear E1.
  assert (H1 : next_ret_code tr (extend st e1 h1)
                 ("ROSC:EXT:FREQ " +:+ PyNum.format_d f) = 0).
  { unfold next_ret_code. rewrite write_count_extend, W1. now apply Hok. }
  destruct (write_step m _ _ (write tr "ROSC:OUTP:STATE 1" ;;
     write tr ("ROSC:OUTP:FREQ " +:+ PyNum.format_d f) ;; k) M1 H1)
    as (e2 & h2 & E2 & A2 & W2 & Q2 & M2).
  rewrite E2, extend_extend in *. clear E2.
  assert (H2 : next_ret_code tr (extend st (e1 ++ e2) h2) "ROSC:OUTP:STATE 1" = 0).
  { unfold next_ret_code.
    rewrite write_count_extend; unfold write_count; rewrite count_events_app.
    unfold write_count in W1, W2. rewrite W1, W2. now apply Hok. }
  destruct (write_step m _ _
     (write tr ("ROSC:OUTP:FREQ " +:+ PyNum.format_d f) ;; k) M2 H2)
    as (e3 & h3 & E3 & A3 & W3 & Q3 & M3).
  rewrite E3, extend_extend in *. clear E3.
  assert (H3 : next_ret_code tr (extend st ((e1 ++ e2) ++ e3) h3)
                 ("ROSC:OUTP:FREQ " +:+ PyNum.format_d f) = 0).
  { unfold next_ret_code.
    rewrite write_count_extend; unfold write_count; rewrite !count_events_app.
    unfold write_count in W1, W2, W3. rewrite W1, W2, W3. now apply Hok. }
  destruct (write_step m _ _ k M3 H3) as (e4 & h4 & E4 & A4 & W4 & Q4 & M4).
  rewrite E4, extend_extend in *. clear E4.
  exists (((e1 ++ e2) ++ e3) ++ e4), h4.
  split; [reflexivity |]. split; [| split; [| exact M4]].
  - rewrite !actions_app, A1, A2, A3, A4. reflexivity.
  - unfold query_count in *. rewrite !count_events_app, Q1, Q2, Q3, Q4. reflexivity.
Qed.

(** What one call of [set_external_reference] does, by the first reply to
    [ROSC:LOCK?]: it returns when the reply is the integer 1, raises
    [ValueError] when the reply is no integer, and otherwise prints and
    then fails on the name [qt], which the module never binds.  No second
    query is ever sent. *)
Lemma set_external_reference_run (m : mode) (st : state) (fuel : nat) (f : Q) :
  in_mode m st ->
  writes_succeed tr st (reference_commands f) ->
  exists evs h,
    actions evs = (Wrote <$> reference_commands f) ++ [Asked "ROSC:LOCK?"] /\
    set_external_reference tr (S fuel) f st =
      match PyNum.py_int (PyStr.strip (next_reply tr st "ROSC:LOCK?")) with
      | None => (Raised ValueError, extend st evs h)
      | Some n =>
          if n =? 1 then (Normal tt, extend st evs h)
          else (Raised (NameError "qt"),
                extend st (evs ++ [EvPrint "Waiting for lock on APSYN"]) h)
      end.
Proof.
  intros Hm Hok.
  unfold set_external_reference.
  rewrite (bind_normal _ _ _ _ _ (load_global_bound "logging" st eq_refl)).
  rewrite (bind_normal _ _ _ _ _ (emit_extend _ st)).
  set (st0 := extend st _ _).
  assert (Hm0 : in_mode m st0) by (apply in_mode_emit; exact Hm).
  assert (Hok0 : writes_succeed tr st0 (reference_commands f)).
  { intros i c Hc. unfold st0. rewrite write_count_extend. simpl.
    rewrite Nat.add_0_r. now apply Hok. }
  destruct (reference_writes m st0 f
              (while_ (S fuel)
                 (do r <- ask tr "ROSC:LOCK?";
                  do s <- str_strip r;
                  do n <- int_ s;
                  pure (negb (n =? 1)))
                 (emit (EvPrint "Waiting for lock on APSYN") ;;
                  load_global "qt" ;; emit (EvSleep 1))) Hm0 Hok0)
    as (ew & hw & Ew & Aw & Qw & Mw).
  rewrite Ew. clear Ew. unfold st0 in *. rewrite extend_extend in *.
  set (st4 := extend st _ hw) in *.
  destruct (ask_in_mode tr (R := value) m st4 "ROSC:LOCK?" Mw)
    as (eq & hq & Eq & Aq & _ & _ & Mq).
  assert (Hr : next_reply tr st4 "ROSC:LOCK?" = next_reply tr st "ROSC:LOCK?").
  { unfold next_reply, st4. rewrite query_count_extend.
    unfold query_count in *. rewrite count_events_app, Qw. simpl.
    now rewrite Nat.add_0_r. }
  rewrite Hr in Eq.
  exists (([EvLog "Setting the Oscillator source to external"] ++ ew) ++ eq), hq.
  split.
  { rewrite !actions_app, Aw, Aq. reflexivity. }
  cbn [while_].
  unfold bind at 1. unfold bind at 1. rewrite Eq. unfold st4.
  rewrite extend_extend.
  cbv beta iota delta [bind pure str_strip int_ raise].
  destruct (PyNum.py_int (PyStr.strip (next_reply tr st "ROSC:LOCK?"))) as [n|];
    [|reflexivity].
  cbv beta iota.
  destruct (n =? 1); cbv beta iota delta [negb]; [reflexivity |].
  rewrite emit_extend, extend_extend.
  cbv beta iota delta [load_global]. simpl.
  reflexivity.
Qed.

End Reference.

(** X6. When the transport accepts them, a call of
    [set_external_reference] first issues the four writes, in order, and
    then queries [ROSC:LOCK?].  If that reply strips to the integer 1, the
    call returns, without any pause; if it is not an integer, the call ends
    with [ValueError]. *)
Theorem set_external_reference_first_reply
    (tr : transport) (m : mode) (st : state) (fuel : nat) (f : Q) :
  in_mode m st ->
  writes_succeed tr st (reference_commands f) ->
  let reply := PyStr.strip (next_reply tr st "ROSC:LOCK?") in
  let seen := actions (events_during (run (set_external_reference tr (S fuel) f)) st) in
  (PyNum.py_int reply = Some 1 ->
   fst (run (set_external_reference tr (S fuel) f) st) = Normal VNone /\
   seen = (Wrote <$> reference_commands f) ++ [Asked "ROSC:LOCK?"]) /\
  (PyNum.py_int reply = None ->
   fst (run (set_external_reference tr (S fuel) f) st) = Raised ValueError /\
   seen = (Wrote <$> reference_commands f) ++ [Asked "ROSC:LOCK?"]).
Proof.
  intros Hm Hok reply seen.
  destruct (set_external_reference_run tr m st fuel f Hm Hok) as (evs & h & Ha & E).
  fold reply in E. unfold seen, events_during, run, def_.
  split; intros Hr; rewrite Hr in E; simpl in E; rewrite E; simpl;
    now rewrite drop_app_length.
Qed.

Lemma set_external_reference_first_reply_witness :
  (in_mode PerCommand fresh_instance /\
   writes_succeed (steady 0 "1") fresh_instance (reference_commands default_frequency) /\
   PyNum.py_int (PyStr.strip (next_reply (steady 0 "1") fresh_instance "ROSC:LOCK?"))
     = Some 1 /\
   fst (run (set_external_reference (steady 0 "1") 1 default_frequency) fresh_instance)
     = Normal VNone /\
   actions (events_during
              (run (set_external_reference (steady 0 "1") 1 default_frequency))
              fresh_instance)
     = (Wrote <$> reference_commands default_frequency) ++ [Asked "ROSC:LOCK?"]) /\
  (in_mode PerCommand (instance_on (steady 0 "x")) /\
   writes_succeed (steady 0 "x") (instance_on (steady 0 "x"))
                  (reference_commands default_frequency) /\
   PyNum.py_int (PyStr.strip (next_reply (steady 0 "x")
                                         (instance_on (steady 0 "x")) "ROSC:LOCK?"))
     = None /\
   fst (run (set_external_reference (steady 0 "x") 1 default_frequency)
            (instance_on (steady 0 "x")))
     = Raised ValueError /\
   actions (events_during
              (run (set_external_reference (steady 0 "x") 1 default_frequency))
              (instance_on (steady 0 "x")))
     = (Wrote <$> reference_commands default_frequency) ++ [Asked "ROSC:LOCK?"]).
Proof.
  assert (Hm : in_mode PerCommand fresh_instance)
    by (vm_compute; repeat split; reflexivity).
  assert (Hok : writes_succeed (steady 0 "1") fresh_instance
                  (reference_commands default_frequency))
    by (intros i c _; reflexivity).
  assert (Hm' : in_mode PerCommand (instance_on (steady 0 "x")))
    by (vm_compute; repeat split; reflexivity).
  assert (Hok' : writes_succeed (steady 0 "x") (instance_on (steady 0 "x"))
                   (reference_commands default_frequency))
    by (intros i c _; reflexivity).
  split.
  - split; [exact Hm |]. split; [exact Hok |]. split; [reflexivity |].
    exact (proj1 (set_external_reference_first_reply (steady 0 "1") PerCommand
                    fresh_instance 0 default_frequency Hm Hok) eq_refl).
  - split; [exact Hm' |]. split; [exact Hok' |]. split; [reflexivity |].
    exact (proj2 (set_external_reference_first_reply (steady 0 "x") PerCommand
                    (instance_on (steady 0 "x")) 0 default_frequency Hm' Hok') eq_refl).
Defined.

(** C4 (evaluated). When the first reply to [ROSC:LOCK?] is an integer
    other than 1, the call does not wait and poll again: after the four
    writes and that one query the loop body prints and then fails on the
    name [qt], which the module never binds, so the call ends with
    [NameError], with no pause and no second query, whatever the device
    would have answered next. *)
Lemma set_external_reference_unlocked_fails_on_qt
    (tr : transport) (m : mode) (st : state) (fuel : nat) (f : Q) (n : Z) :
  in_mode m st ->
  writes_succeed tr st (reference_commands f) ->
  PyNum.py_int (PyStr.strip (next_reply tr st "ROSC:LOCK?")) = Some n ->
  n <> 1 ->
  fst (run (set_external_reference tr (S fuel) f) st) = Raised (NameError "qt") /\
  actions (events_during (run (set_external_reference tr (S fuel) f)) st)
    = (Wrote <$> reference_commands f)
        ++ [Asked "ROSC:LOCK?"; Printed "Waiting for lock on APSYN"].
Proof.
  intros Hm Hok Hr Hn.
  destruct (set_external_reference_run tr m st fuel f Hm Hok) as (evs & h & Ha & E).
  rewrite Hr in E. apply Z.eqb_neq in Hn. rewrite Hn in E.
  unfold events_during, run, def_. rewrite E. simpl. split; [reflexivity |].
  rewrite drop_app_length, actions_app, Ha, <- app_assoc. reflexivity.
Qed.

Lemma set_external_reference_unlocked_fails_on_qt_witness :
  in_mode PerCommand (instance_on (locking_after 2)) /\
  writes_succeed (locking_after 2) (instance_on (locking_after 2))
                 (reference_commands default_frequency) /\
  next_reply (locking_after 2) (instance_on (locking_after 2)) "ROSC:LOCK?" = "0" /\
  query_result (locking_after 2) 2 "ROSC:LOCK?" = "1" /\
  PyNum.py_int (PyStr.strip (next_reply (locking_after 2)
                               (instance_on (locking_after 2)) "ROSC:LOCK?"))
    = Some 0 /\
  fst (run (set_external_reference (locking_after 2) 1000 default_frequency)
           (instance_on (locking_after 2)))
    = Raised (NameError "qt") /\
  actions (events_during
             (run (set_external_reference (locking_after 2) 1000 default_frequency))
             (instance_on (locking_after 2)))
    = (Wrote <$> reference_commands default_frequency)
        ++ [Asked "ROSC:LOCK?"; Printed "Waiting for lock on APSYN"].
Proof.
  assert (Hm : in_mode PerCommand (instance_on (locking_after 2)))
    by (vm_compute; repeat split; reflexivity).
  assert (Hok : writes_succeed (locking_after 2) (instance_on (locking_after 2))
                  (reference_commands default_frequency))
    by (intros i c _; reflexivity).
  assert (Hn : 0 <> 1) by discriminate.
  split; [exact Hm |]. split; [exact Hok |]. do 3 (split; [reflexivity |]).
  exact (set_external_reference_unlocked_fails_on_qt (locking_after 2) PerCommand
           (instance_on (locking_after 2)) 999 default_frequency 0 Hm Hok
           eq_refl Hn).
Defined.

(** With the writes accepted, one unrolling of the loop always suffices:
    the call never runs out of fuel. *)
Lemma set_external_reference_one_iteration
    (tr : transport) (m : mode) (st : state) (fuel : nat) (f : Q) :
  in_mode m st ->
  writes_succeed tr st (reference_commands f) ->
  fst (run (set_external_reference tr (S fuel) f) st) <> OutOfFuel.
Proof.
  intros Hm Hok.
  destruct (set_external_reference_run tr m st fuel f Hm Hok) as (evs & h & Ha & E).
  unfold run, def_. rewrite E. destruct (PyNum.py_int _) as [n|]; [destruct (n =? 1) |]; discriminate.
Qed.

(** * The parameter registry *)

Section Registry.

Variable tr : transport.

Lemma lookup_parameter_found {R} (st : state) (k : string) (p : parameter) :
  parameters st !! k = Some p ->
  lookup_parameter (R := R) k st = (Normal p, st).
Proof. unfold lookup_parameter, bind, read, pure. now intros ->. Qed.

Lemma events_during_none {R A} (m : stmt R A) (st : state) out :
  m st = (out, st) -> events_during m st = [].
Proof. intros E. unfold events_during. rewrite E. apply drop_all. Qed.

(** Getting [frequency]: one [FREQ?] query, then [float] on the reply. *)
Lemma get_frequency_run (m : mode) (st : state) :
  in_mode m st ->
  parameters st !! "frequency" = Some frequency_parameter ->
  exists evs h,
    actions evs = [Asked "FREQ?"] /\
    param_get tr "frequency" st =
      (match PyNum.py_float (next_reply tr st "FREQ?") with
       | Some x => Returned (VNum (number_of_literal x))
       | None => Raised ValueError
       end, extend st evs h).
Proof.
  intros Hm Hp. unfold param_get.
  rewrite (bind_normal _ _ _ _ _ (lookup_parameter_found st _ _ Hp)).
  destruct (ask_in_mode tr (R := value) m st "FREQ?" Hm)
    as (evs & h & E & Ha & _ & _ & _).
  exists evs, h. split; [exact Ha |].
  change (get_cmd frequency_parameter) with "FREQ?".
  rewrite (bind_normal _ _ _ _ _ E).
  cbv beta iota delta [bind pure raise return_ get_parser val_mapping
                         frequency_parameter apply_parser].
  now destruct (PyNum.py_float (next_reply tr st "FREQ?")).
Qed.

(** Getting [pulm_source]: one [PULM:POL?] query, whatever comes back. *)
Lemma get_pulm_source_run (m : mode) (st : state) :
  in_mode m st ->
  parameters st !! "pulm_source" = Some pulm_source_parameter ->
  exists out evs h,
    actions evs = [Asked "PULM:POL?"] /\
    param_get tr "pulm_source" st = (out, extend st evs h).
Proof.
  intros Hm Hp. unfold param_get.
  rewrite (bind_normal _ _ _ _ _ (lookup_parameter_found st _ _ Hp)).
  destruct (ask_in_mode tr (R := value) m st "PULM:POL?" Hm)
    as (evs & h & E & Ha & _ & _ & _).
  change (get_cmd pulm_source_parameter) with "PULM:POL?".
  rewrite (bind_normal _ _ _ _ _ E).
  cbv beta iota delta [bind pure raise return_ get_parser val_mapping
                         pulm_source_parameter apply_parser].
  destruct (assoc_inv _ _); eexists _, evs, h; (split; [exact Ha | reflexivity]).
Qed.

(** Setting [pulm_source] to a key of its alias map writes the polarity
    command with the alias. *)
Lemma set_pulm_source_alias (m : mode) (st : state) (key alias : string) :
  in_mode m st ->
  parameters st !! "pulm_source" = Some pulm_source_parameter ->
  assoc key [("Internal", "INT"); ("External", "EXT")] = Some alias ->
  actions (events_during (param_set tr "pulm_source" (VStr key)) st)
    = [Wrote ("PULM:POL " +:+ alias)].
Proof.
  intros Hm Hp Hk. unfold events_during, param_set.
  rewrite (bind_normal _ _ _ _ _ (lookup_parameter_found st _ _ Hp)).
  cbv beta iota delta [val_mapping pulm_source_parameter set_cmd].
  rewrite Hk. unfold bind at 1. cbv beta iota delta [pure].
  change (py_format "PULM:POL {}" (VStr alias))
    with (Some ("PULM:POL " +:+ alias +:+ "")).
  assert (Happ : alias +:+ "" = alias).
  { clear. induction alias as [|c a IH]; [reflexivity |].
    change (String c a +:+ "") with (String c (a +:+ "")). now rewrite IH. }
  rewrite Happ. cbv beta iota.
  destruct (write_in_mode tr (R := value) m st ("PULM:POL " +:+ alias) Hm)
    as (out & evs & h & E & Ha & _).
  unfold bind. rewrite E.
  destruct out; simpl; now rewrite drop_app_length, Ha.
Qed.

(** Any other value is refused before anything is sent. *)
Lemma set_pulm_source_refused (st : state) (x : value) :
  parameters st !! "pulm_source" = Some pulm_source_parameter ->
  (forall key alias, x = VStr key ->
     assoc key [("Internal", "INT"); ("External", "EXT")] = Some alias -> False) ->
  param_set tr "pulm_source" x st = (Raised ValueError, st).
Proof.
  intros Hp Hx. unfold param_set.
  rewrite (bind_normal _ _ _ _ _ (lookup_parameter_found st _ _ Hp)).
  cbv beta iota delta [val_mapping pulm_source_parameter set_cmd].
  destruct x as [|key|n]; try reflexivity.
  destruct (assoc key _) as [alias|] eqn:E; [|reflexivity].
  destruct (Hx key alias eq_refl E).
Qed.

End Registry.

(** C5. The [pulm_source] parameter is registered with the polarity
    commands, the same templates as [pulm_polarity], and the aliases
    Internal to INT and External to EXT.  Setting it writes
    [PULM:POL INT] or [PULM:POL EXT] and nothing else, any other value is
    refused with nothing sent, and getting it queries [PULM:POL?]: no
    [PULM:SOUR] command is ever issued. *)
Theorem pulm_source_uses_polarity_commands
    (tr : transport) (m : mode) (st : state) :
  in_mode m st ->
  parameters st !! "pulm_source" = Some pulm_source_parameter ->
  set_cmd pulm_source_parameter = "PULM:POL {}" /\
  get_cmd pulm_source_parameter = "PULM:POL?" /\
  set_cmd pulm_source_parameter = set_cmd pulm_polarity_parameter /\
  get_cmd pulm_source_parameter = get_cmd pulm_polarity_parameter /\
  val_mapping pulm_source_parameter
    = Some [("Internal", "INT"); ("External", "EXT")] /\
  actions (events_during (param_set tr "pulm_source" (VStr "Internal")) st)
    = [Wrote "PULM:POL INT"] /\
  actions (events_during (param_set tr "pulm_source" (VStr "External")) st)
    = [Wrote "PULM:POL EXT"] /\
  (forall x : value,
     x <> VStr "Internal" -> x <> VStr "External" ->
     param_set tr "pulm_source" x st = (Raised ValueError, st) /\
     actions (events_during (param_set tr "pulm_source" x) st) = []) /\
  actions (events_during (param_get tr "pulm_source") st) = [Asked "PULM:POL?"].
Proof.
  intros Hm Hp. do 5 (split; [reflexivity |]).
  split; [exact (set_pulm_source_alias tr m st "Internal" "INT" Hm Hp eq_refl) |].
  split; [exact (set_pulm_source_alias tr m st "External" "EXT" Hm Hp eq_refl) |].
  split.
  - intros x H1 H2.
    assert (E : param_set tr "pulm_source" x st = (Raised ValueError, st)).
    { apply set_pulm_source_refused; [exact Hp |].
      intros key alias -> Hk. simpl in Hk.
      destruct (String.eqb_spec key "Internal") as [->|_]; [now apply H1 |].
      destruct (String.eqb_spec key "External") as [->|_]; [now apply H2 |].
      discriminate Hk. }
    split; [exact E |]. now rewrite (events_during_none _ _ _ E).
  - destruct (get_pulm_source_run tr m st Hm Hp) as (out & evs & h & Ha & E).
    now rewrite (events_during_extend _ _ _ _ _ E).
Qed.

Lemma pulm_source_uses_polarity_commands_witness :
  in_mode PerCommand fresh_instance /\
  parameters fresh_instance !! "pulm_source" = Some pulm_source_parameter /\
  set_cmd pulm_source_parameter = "PULM:POL {}" /\
  get_cmd pulm_source_parameter = "PULM:POL?" /\
  set_cmd pulm_source_parameter = set_cmd pulm_polarity_parameter /\
  get_cmd pulm_source_parameter = get_cmd pulm_polarity_parameter /\
  val_mapping pulm_source_parameter
    = Some [("Internal", "INT"); ("External", "EXT")] /\
  actions (events_during (param_set (steady 0 "1") "pulm_source" (VStr "Internal"))
                         fresh_instance)
    = [Wrote "PULM:POL INT"] /\
  actions (events_during (param_set (steady 0 "1") "pulm_source" (VStr "External"))
                         fresh_instance)
    = [Wrote "PULM:POL EXT"] /\
  (forall x : value,
     x <> VStr "Internal" -> x <> VStr "External" ->
     param_set (steady 0 "1") "pulm_source" x fresh_instance
       = (Raised ValueError, fresh_instance) /\
     actions (events_during (param_set (steady 0 "1") "pulm_source" x)
                            fresh_instance) = []) /\
  actions (events_during (param_get (steady 0 "1") "pulm_source") fresh_instance)
    = [Asked "PULM:POL?"].
Proof.
  assert (Hm : in_mode PerCommand fresh_instance)
    by (vm_compute; repeat split; reflexivity).
  assert (Hp : parameters fresh_instance !! "pulm_source" = Some pulm_source_parameter)
    by (vm_compute; reflexivity).
  split; [exact Hm |]. split; [exact Hp |].
  exact (pulm_source_uses_polarity_commands (steady 0 "1") PerCommand
           fresh_instance Hm Hp).
Defined.

(** C7. The validator registered for setting [frequency] lets through
    exactly the numbers [v] with 2490236 <= v <= 20000000000: 2490235 and
    20000000001 are refused, 2490236 and 20000000000 pass. *)
Theorem frequency_validator_range :
  vals frequency_parameter = Some (Numbers (2490236 # 1) (20000000000 # 1)) /\
  (forall x : value,
     accepts frequency_parameter x = true <->
     exists q : Q,
       x = VNum (PyNum.Finite q) /\
       (2490236 # 1 <= q)%Q /\ (q <= 20000000000 # 1)%Q) /\
  accepts frequency_parameter (VNum (PyNum.Finite (2490235 # 1))) = false /\
  accepts frequency_parameter (VNum (PyNum.Finite (2490236 # 1))) = true /\
  accepts frequency_parameter (VNum (PyNum.Finite (20000000000 # 1))) = true /\
  accepts frequency_parameter (VNum (PyNum.Finite (20000000001 # 1))) = false.
Proof.
  split; [reflexivity |]. split; [| repeat split; reflexivity].
  intros x. unfold accepts; cbn [vals frequency_parameter validate]. split.
  - destruct x as [|s|[q|b|]]; try discriminate.
    intros H. apply andb_prop in H as [H1 H2].
    exists q. split; [reflexivity |]. split; now apply Qle_bool_iff.
  - intros (q & -> & H1 & H2). apply andb_true_intro.
    split; now apply Qle_bool_iff.
Qed.

Lemma frequency_validator_range_witness :
  accepts frequency_parameter (VNum (PyNum.Finite default_frequency)) = true /\
  exists q : Q,
    VNum (PyNum.Finite default_frequency) = VNum (PyNum.Finite q) /\
    (2490236 # 1 <= q)%Q /\ (q <= 20000000000 # 1)%Q.
Proof.
  split; [reflexivity |].
  exact (proj1 (proj1 (proj2 frequency_validator_range)
                      (VNum (PyNum.Finite default_frequency))) eq_refl).
Defined.

(** C9. A reply that is not a well-formed numeral makes the parse fail, and
    the failure reaches the caller: getting [frequency] raises [ValueError]
    when [float] rejects the reply to [FREQ?], and
    [set_external_reference] raises [ValueError] when [int] rejects the
    stripped reply to [ROSC:LOCK?]. *)
Theorem malformed_numeric_reply_propagates
    (tr : transport) (m : mode) (st : state) :
  in_mode m st ->
  (parameters st !! "frequency" = Some frequency_parameter ->
   PyNum.py_float (next_reply tr st "FREQ?") = None ->
   fst (run (param_get tr "frequency") st) = Raised ValueError) /\
  (forall (fuel : nat) (f : Q),
     writes_succeed tr st (reference_commands f) ->
     PyNum.py_int (PyStr.strip (next_reply tr st "ROSC:LOCK?")) = None ->
     fst (run (set_external_reference tr (S fuel) f) st) = Raised ValueError).
Proof.
  intros Hm. split.
  - intros Hp Hr.
    destruct (get_frequency_run tr m st Hm Hp) as (evs & h & _ & E).
    rewrite Hr in E. unfold run, def_. now rewrite E.
  - intros fuel f Hok Hr.
    destruct (set_external_reference_run tr m st fuel f Hm Hok) as (evs & h & _ & E).
    rewrite Hr in E. unfold run, def_. now rewrite E.
Qed.

Lemma malformed_numeric_reply_propagates_witness :
  in_mode PerCommand (instance_on (steady 0 "12.5.1")) /\
  parameters (instance_on (steady 0 "12.5.1")) !! "frequency"
    = Some frequency_parameter /\
  PyNum.py_float (next_reply (steady 0 "12.5.1")
                             (instance_on (steady 0 "12.5.1")) "FREQ?") = None /\
  fst (run (param_get (steady 0 "12.5.1") "frequency")
           (instance_on (steady 0 "12.5.1"))) = Raised ValueError /\
  writes_succeed (steady 0 "12.5.1") (instance_on (steady 0 "12.5.1"))
                 (reference_commands default_frequency) /\
  PyNum.py_int (PyStr.strip (next_reply (steady 0 "12.5.1")
                               (instance_on (steady 0 "12.5.1")) "ROSC:LOCK?"))
    = None /\
  fst (run (set_external_reference (steady 0 "12.5.1") 1 default_frequency)
           (instance_on (steady 0 "12.5.1"))) = Raised ValueError.
Proof.
  assert (Hm : in_mode PerCommand (instance_on (steady 0 "12.5.1")))
    by (vm_compute; repeat split; reflexivity).
  assert (Hok : writes_succeed (steady 0 "12.5.1") (instance_on (steady 0 "12.5.1"))
                  (reference_commands default_frequency))
    by (intros i c _; reflexivity).
  destruct (malformed_numeric_reply_propagates (steady 0 "12.5.1") PerCommand
              (instance_on (steady 0 "12.5.1")) Hm) as [Hget Hlock].
  split; [exact Hm |]. split; [reflexivity |]. split; [reflexivity |].
  split; [exact (Hget eq_refl eq_refl) |]. split; [exact Hok |].
  split; [reflexivity |]. exact (Hlock 0%nat default_frequency Hok eq_refl).
Defined.

(** Every construction registers the six parameters under their names. *)
Lemma construct_registers
    (tr : transport) (nm address : string) (close_after_every_command : bool) :
  let ps := parameters (snd (construct tr nm address close_after_every_command)) in
  ps !! "frequency" = Some frequency_parameter /\
  ps !! "blanking" = Some blanking_parameter /\
  ps !! "output" = Some output_parameter /\
  ps !! "pulm_state" = Some pulm_state_parameter /\
  ps !! "pulm_polarity" = Some pulm_polarity_parameter /\
  ps !! "pulm_source" = Some pulm_source_parameter.
Proof. destruct close_after_every_command; repeat split; reflexivity. Qed.

(** C10. Every construction opens a handle bound to the address and sends
    [FREQ?] over it before the first parameter is registered.  With
    [close_after_every_command] set, the constructor then closes that handle,
    stores none, and binds the two raw operations to the per-command
    variants, so that the next send and the next query each open a new
    connection; without it the handle stays and nothing is rebound. *)
Theorem init_queries_then_closes
    (tr : transport) (nm address : string) (close_after_every_command : bool) :
  let st := snd (construct tr nm address close_after_every_command) in
  fst (construct tr nm address close_after_every_command) = Normal VNone /\
  trace st
    = [EvOpen 0 address;
       EvLog ("Querying instrument " +:+ nm +:+ ": FREQ?");
       EvQuery 0 "FREQ?"]
      ++ (if close_after_every_command then [EvClose 0] else [])
      ++ (EvAddParameter <$>
            ["frequency"; "blanking"; "output"; "pulm_state"; "pulm_polarity";
             "pulm_source"]) /\
  visa_handle st
    = (if close_after_every_command then None
       else Some (Handle 0 address CRLF None)) /\
  attrs st
    = (if close_after_every_command
       then <["write_raw" := BoundMethod F_write_raw_close]>
              (<["ask_raw" := BoundMethod F_ask_raw_close]> ∅)
       else ∅) /\
  in_mode (if close_after_every_command then PerCommand else Persistent) st /\
  _address st = address /\
  (forall cmd : string,
     open_count (events_during (send tr cmd) st)
       = (if close_after_every_command then 1 else 0)%nat /\
     open_count (events_during (query tr cmd) st)
       = (if close_after_every_command then 1 else 0)%nat).
Proof.
  assert (Hm : in_mode (if close_after_every_command then PerCommand else Persistent)
                       (snd (construct tr nm address close_after_every_command))).
  { destruct close_after_every_command; repeat split; try reflexivity.
    now exists (Handle 0 address CRLF None). }
  cbv zeta. split; [now destruct close_after_every_command |].
  split; [now destruct close_after_every_command |].
  split; [now destruct close_after_every_command |].
  split; [now destruct close_after_every_command |].
  split; [exact Hm |].
  split; [now destruct close_after_every_command |].
  intros cmd.
  rewrite (send_open_count tr _ _ cmd Hm), (query_open_count tr _ _ cmd Hm).
  now destruct close_after_every_command.
Qed.

(** * What the operations leave alone, and that they end *)

Section Frames.

Lemma keeps_pure {R A} (a : A) : keeps_instance (pure (R := R) a).
Proof. intros st. exists [], (visa_handle st). simpl. now rewrite extend_nil. Qed.

Lemma keeps_raise {R A} (e : exn) : keeps_instance (raise (R := R) (A := A) e).
Proof. intros st. exists [], (visa_handle st). simpl. now rewrite extend_nil. Qed.

Lemma keeps_return {R A} (r : R) : keeps_instance (return_ (A := A) r).
Proof. intros st. exists [], (visa_handle st). simpl. now rewrite extend_nil. Qed.

Lemma keeps_read {R A} (f : state -> A) : keeps_instance (read (R := R) f).
Proof. intros st. exists [], (visa_handle st). simpl. now rewrite extend_nil. Qed.

Lemma keeps_emit {R} (e : event) : keeps_instance (emit (R := R) e).
Proof. intros st. now exists [e], (visa_handle st). Qed.

Lemma keeps_set_visa_handle {R} (h : option handle) :
  keeps_instance (update (R := R) (set_visa_handle h)).
Proof.
  intros st. exists [], h. unfold update, set_visa_handle, extend; simpl.
  now rewrite app_nil_r.
Qed.

Lemma keeps_bind {R A B} (m : stmt R A) (k : A -> stmt R B) :
  keeps_instance m -> (forall a, keeps_instance (k a)) -> keeps_instance (bind m k).
Proof.
  intros Hm Hk st. unfold bind.
  destruct (Hm st) as (evs & h & E). destruct (m st) as [[a|r|e|] st1];
    simpl in E; subst st1; try (now exists evs, h).
  destruct (Hk a (extend st evs h)) as (evs' & h' & E').
  exists (evs ++ evs'), h'. now rewrite E', extend_extend.
Qed.

Lemma keeps_def {R} (body : stmt value unit) :
  keeps_instance body -> keeps_instance (def_ (R := R) body).
Proof.
  intros Hb st. unfold def_. destruct (Hb st) as (evs & h & E).
  destruct (body st) as [[a|r|e|] st1]; simpl in E; subst st1; now exists evs, h.
Qed.

Lemma keeps_while {R} (fuel : nat) (cond : stmt R bool) (body : stmt R unit) :
  keeps_instance cond -> keeps_instance body ->
  keeps_instance (while_ fuel cond body).
Proof.
  intros Hc Hb. induction fuel as [|fuel IH]; simpl.
  - intros st. exists [], (visa_handle st). simpl. now rewrite extend_nil.
  - apply keeps_bind; [exact Hc |]. intros [|]; [| apply keeps_pure].
    apply keeps_bind; [exact Hb | intros _; exact IH].
Qed.

Lemma keeps_load_global {R} (n : string) : keeps_instance (load_global (R := R) n).
Proof.
  unfold load_global. destruct (bool_decide _); [apply keeps_pure | apply keeps_raise].
Qed.

Lemma fuel_free_pure {R A} (a : A) : fuel_free (pure (R := R) a).
Proof. intros st; discriminate. Qed.

Lemma fuel_free_raise {R A} (e : exn) : fuel_free (raise (R := R) (A := A) e).
Proof. intros st; discriminate. Qed.

Lemma fuel_free_return {R A} (r : R) : fuel_free (return_ (A := A) r).
Proof. intros st; discriminate. Qed.

Lemma fuel_free_read {R A} (f : state -> A) : fuel_free (read (R := R) f).
Proof. intros st; discriminate. Qed.

Lemma fuel_free_update {R} (f : state -> state) : fuel_free (update (R := R) f).
Proof. intros st; discriminate. Qed.

Lemma fuel_free_emit {R} (e : event) : fuel_free (emit (R := R) e).
Proof. intros st; discriminate. Qed.

Lemma fuel_free_load_global {R} (n : string) : fuel_free (load_global (R := R) n).
Proof.
  unfold load_global. destruct (bool_decide _);
    [apply fuel_free_pure | apply fuel_free_raise].
Qed.

Lemma fuel_free_bind {R A B} (m : stmt R A) (k : A -> stmt R B) :
  fuel_free m -> (forall a, fuel_free (k a)) -> fuel_free (bind m k).
Proof.
  intros Hm Hk st. unfold bind. specialize (Hm st).
  destruct (m st) as [[a|r|e|] st1]; simpl in *; try discriminate;
    [apply Hk | congruence].
Qed.

Lemma fuel_free_def {R} (body : stmt value unit) :
  fuel_free body -> fuel_free (def_ (R := R) body).
Proof.
  intros Hb st. unfold def_. specialize (Hb st).
  destruct (body st) as [[a|r|e|] st1]; simpl in *; try discriminate; congruence.
Qed.

End Frames.

(** Splitting a statement into its primitive steps. *)
Ltac step_keeps :=
  repeat first
    [ apply keeps_pure | apply keeps_raise | apply keeps_return | apply keeps_read
    | apply keeps_emit | apply keeps_set_visa_handle | apply keeps_load_global
    | apply keeps_def
    | apply keeps_bind; [| intros ?]
    | match goal with
      | |- keeps_instance (match ?x with _ => _ end) => destruct x
      | |- keeps_instance (if ?x then _ else _) => destruct x
      | |- keeps_instance (let '(_, _) := ?x in _) => destruct x
      end ].

Ltac step_fuel :=
  repeat first
    [ apply fuel_free_pure | apply fuel_free_raise | apply fuel_free_return
    | apply fuel_free_read | apply fuel_free_emit | apply fuel_free_update
    | apply fuel_free_load_global | apply fuel_free_def
    | apply fuel_free_bind; [| intros ?]
    | match goal with
      | |- fuel_free (match ?x with _ => _ end) => destruct x
      | |- fuel_free (if ?x then _ else _) => destruct x
      | |- fuel_free (let '(_, _) := ?x in _) => destruct x
      end ].

Section FramesOfTheDriver.

Variable tr : transport.

Lemma keeps_write_raw_close cmd : keeps_instance (write_raw_close tr cmd).
Proof.
  unfold write_raw_close, log_debug, acquire, open_resource, the_handle,
    handle_write, handle_close, check_error. step_keeps.
Qed.

Lemma keeps_ask_raw_close cmd : keeps_instance (ask_raw_close tr cmd).
Proof.
  unfold ask_raw_close, log_debug, acquire, open_resource, the_handle,
    handle_query, handle_close. step_keeps.
Qed.

Lemma keeps_apply_func {R} f cmd : keeps_instance (apply_func (R := R) tr f cmd).
Proof.
  destruct f; cbn [apply_func]; apply keeps_def;
    [apply keeps_ask_raw_close | apply keeps_write_raw_close | |];
    unfold VisaInstrument_ask_raw, VisaInstrument_write_raw, log_debug,
      the_handle, handle_query, handle_write, check_error; step_keeps.
Qed.

Lemma keeps_call_attr {R} attr on_class cmd :
  (forall c, keeps_instance (on_class c)) ->
  keeps_instance (call_attr (R := R) tr attr on_class cmd).
Proof.
  intros H. unfold call_attr.
  apply keeps_bind; [apply keeps_read |]. intros [[f|f]|]; cbn [call];
    [apply keeps_apply_func | apply keeps_raise | apply H].
Qed.

Lemma keeps_write {R} cmd : keeps_instance (write (R := R) tr cmd).
Proof.
  apply keeps_call_attr. intros c. unfold Instrument_write.
  apply keeps_def. apply keeps_bind; [| intros _; apply keeps_pure].
  apply keeps_call_attr. intros c'. apply keeps_apply_func.
Qed.

Lemma keeps_ask {R} cmd : keeps_instance (ask (R := R) tr cmd).
Proof.
  apply keeps_call_attr. intros c. unfold Instrument_ask.
  apply keeps_def. apply keeps_bind; [| intros a; apply keeps_return].
  apply keeps_call_attr. intros c'. apply keeps_apply_func.
Qed.

Lemma fuel_free_apply_func {R} f cmd : fuel_free (apply_func (R := R) tr f cmd).
Proof.
  destruct f; cbn [apply_func]; apply fuel_free_def;
    unfold ask_raw_close, write_raw_close, VisaInstrument_ask_raw,
      VisaInstrument_write_raw, log_debug, acquire, open_resource,
      the_handle, handle_query, handle_write, handle_close, check_error;
    step_fuel.
Qed.

Lemma fuel_free_call_attr {R} attr on_class cmd :
  (forall c, fuel_free (on_class c)) ->
  fuel_free (call_attr (R := R) tr attr on_class cmd).
Proof.
  intros H. unfold call_attr.
  apply fuel_free_bind; [apply fuel_free_read |]. intros [[f|f]|]; cbn [call];
    [apply fuel_free_apply_func | apply fuel_free_raise | apply H].
Qed.

Lemma fuel_free_write {R} cmd : fuel_free (write (R := R) tr cmd).
Proof.
  apply fuel_free_call_attr. intros c. unfold Instrument_write.
  apply fuel_free_def. apply fuel_free_bind; [| intros _; apply fuel_free_pure].
  apply fuel_free_call_attr. intros c'. apply fuel_free_apply_func.
Qed.

Lemma fuel_free_ask {R} cmd : fuel_free (ask (R := R) tr cmd).
Proof.
  apply fuel_free_call_attr. intros c. unfold Instrument_ask.
  apply fuel_free_def. apply fuel_free_bind; [| intros a; apply fuel_free_return].
  apply fuel_free_call_attr. intros c'. apply fuel_free_apply_func.
Qed.

End FramesOfTheDriver.

(** X2. The raw operations and the reference routine leave the instance as
    it is but for the handle slot and the log: from any state, a send, a
    query and a call of [set_external_reference] keep the bindings of the
    operations, the parameter table, the name and the address, and only add
    to the log. *)
Theorem operations_keep_the_instance
    (tr : transport) (st : state) (cmd : string) (fuel : nat) (f : Q) :
  (exists evs h, snd (send tr cmd st) = extend st evs h) /\
  (exists evs h, snd (query tr cmd st) = extend st evs h) /\
  (exists evs h, snd (set_external_reference tr fuel f st) = extend st evs h) /\
  attrs (snd (send tr cmd st)) = attrs st /\
  attrs (snd (query tr cmd st)) = attrs st /\
  attrs (snd (set_external_reference tr fuel f st)) = attrs st /\
  parameters (snd (send tr cmd st)) = parameters st /\
  parameters (snd (query tr cmd st)) = parameters st /\
  parameters (snd (set_external_reference tr fuel f st)) = parameters st.
Proof.
  assert (Hs : keeps_instance (send tr cmd)).
  { unfold send, write_raw. apply keeps_call_attr. intros c. apply keeps_apply_func. }
  assert (Hq : keeps_instance (query tr cmd)).
  { unfold query, ask_raw. apply keeps_call_attr. intros c. apply keeps_apply_func. }
  assert (Hr : keeps_instance (set_external_reference tr fuel f)).
  { unfold set_external_reference.
    apply keeps_bind; [apply keeps_load_global | intros _].
    apply keeps_bind; [apply keeps_emit | intros _].
    do 4 (apply keeps_bind; [apply keeps_write | intros _]).
    apply keeps_while.
    - apply keeps_bind; [apply keeps_ask | intros r].
      apply keeps_bind; [unfold str_strip; step_keeps | intros s].
      apply keeps_bind; [unfold int_; step_keeps | intros n; apply keeps_pure].
    - step_keeps. }
  destruct (Hs st) as (e1 & h1 & E1), (Hq st) as (e2 & h2 & E2),
    (Hr st) as (e3 & h3 & E3).
  rewrite E1, E2, E3. repeat split; eauto.
Qed.

Section LoopBody.

Lemma bind_ext {R A B} (m : stmt R A) (k1 k2 : A -> stmt R B) (st : state) :
  (forall a st', k1 a st' = k2 a st') -> bind m k1 st = bind m k2 st.
Proof. intros H. unfold bind. destruct (m st) as [[a|r|e|] st1]; auto. Qed.

(** The body of the lock-wait loop: it prints and then fails on [qt]. *)
Lemma loop_body_fails {R} (st : state) :
  (emit (R := R) (EvPrint "Waiting for lock on APSYN") ;;
   load_global "qt" ;; emit (EvSleep 1)) st
  = (Raised (NameError "qt"),
     extend st [EvPrint "Waiting for lock on APSYN"] (visa_handle st)).
Proof. reflexivity. Qed.

(** A loop whose body always fails runs its condition once. *)
Lemma while_failing_body {R} (fuel : nat) (cond : stmt R bool) (body : stmt R unit) :
  (forall st, exists e st', body st = (Raised e, st')) ->
  forall st, while_ (S fuel) cond body st = while_ 1 cond body st.
Proof.
  intros Hb st. cbn [while_]. apply bind_ext. intros [|] st1; [| reflexivity].
  destruct (Hb st1) as (e & st2 & E).
  now rewrite !(bind_raised _ _ _ _ _ E).
Qed.

Lemma fuel_free_failing_body {R} (fuel : nat) (cond : stmt R bool) (body : stmt R unit) :
  (forall st, exists e st', body st = (Raised e, st')) ->
  fuel_free cond -> fuel_free (while_ (S fuel) cond body).
Proof.
  intros Hb Hc. cbn [while_]. apply fuel_free_bind; [exact Hc |].
  intros [|]; [| apply fuel_free_pure]. intros st.
  destruct (Hb st) as (e & st2 & E).
  rewrite (bind_raised _ _ _ _ _ E). discriminate.
Qed.

End LoopBody.

(** X3. The lock wait of [set_external_reference] never blocks: from any
    state, on any transport, the call ends within the first pass of its
    loop, so that more loop fuel changes nothing. *)
Theorem set_external_reference_never_blocks
    (tr : transport) (st : state) (fuel : nat) (f : Q) :
  fst (set_external_reference tr (S fuel) f st) <> OutOfFuel /\
  set_external_reference tr (S fuel) f st = set_external_reference tr 1 f st.
Proof.
  assert (Hb : forall s : state, exists e s',
             (emit (R := value) (EvPrint "Waiting for lock on APSYN") ;;
              load_global "qt" ;; emit (EvSleep 1)) s = (Raised e, s')).
  { intros s. eexists _, _. apply loop_body_fails. }
  split.
  - revert st. change (fuel_free (set_external_reference tr (S fuel) f)).
    unfold set_external_reference.
    apply fuel_free_bind; [apply fuel_free_load_global | intros _].
    apply fuel_free_bind; [apply fuel_free_emit | intros _].
    do 4 (apply fuel_free_bind; [apply fuel_free_write | intros _]).
    apply fuel_free_failing_body; [exact Hb |].
    apply fuel_free_bind; [apply fuel_free_ask | intros r].
    apply fuel_free_bind; [unfold str_strip; step_fuel | intros s].
    apply fuel_free_bind; [unfold int_; step_fuel | intros n; apply fuel_free_pure].
  - unfold set_external_reference.
    do 6 (apply bind_ext; intros ? ?).
    apply while_failing_body. exact Hb.
Qed.

(** * Sessions over a run *)

Section Sessions.

Variable tr : transport.

Lemma balanced_extend_quiet (st : state) (evs : list event) :
  open_count evs = 0%nat -> close_count evs = 0%nat ->
  balanced st -> balanced (extend st evs (visa_handle st)).
Proof.
  unfold balanced, extend, open_count, close_count; simpl.
  intros Ho Hc. rewrite !count_events_app, Ho, Hc, !Nat.add_0_r. auto.
Qed.

(** The state a raw operation leaves, by mode and by what the transport
    reports. *)
Lemma send_state (m : mode) (st : state) (cmd : string) :
  in_mode m st ->
  snd (send tr cmd st) =
    match m with
    | PerCommand =>
        if next_ret_code tr st cmd =? 0
        then extend st (log_line "Writing to" st cmd :: acquire_events st ++
                        [EvWrite (session (acquired tr st)) cmd;
                         EvClose (session (acquired tr st))]) None
        else extend st (log_line "Writing to" st cmd :: acquire_events st ++
                        [EvWrite (session (acquired tr st)) cmd])
                    (Some (acquired tr st))
    | Persistent =>
        extend st [log_line "Writing to" st cmd;
                   EvWrite (session (acquired tr st)) cmd] (visa_handle st)
    end.
Proof.
  intros Hm. unfold send. destruct m.
  - pose proof Hm as (_ & _ & _ & _ & [h Hh]).
    rewrite write_raw_persistent by exact Hm. unfold def_, acquired. rewrite Hh.
    destruct (Z.eq_dec (next_ret_code tr st cmd) 0) as [Hrc|Hrc].
    + now rewrite (VisaInstrument_write_raw_ok tr st h cmd Hh Hrc).
    + now rewrite (VisaInstrument_write_raw_error tr st h cmd Hh Hrc).
  - rewrite write_raw_per_command by exact Hm. unfold def_.
    destruct (Z.eqb_spec (next_ret_code tr st cmd) 0) as [Hrc|Hrc].
    + now rewrite (write_raw_close_ok tr st cmd Hrc).
    + now rewrite (write_raw_close_error tr st cmd Hrc).
Qed.

Lemma query_state (m : mode) (st : state) (cmd : string) :
  in_mode m st ->
  snd (query tr cmd st) =
    extend st (log_line "Querying" st cmd
                 :: match m with PerCommand => acquire_events st | Persistent => [] end
                 ++ [EvQuery (session (acquired tr st)) cmd])
           (Some (acquired tr st)).
Proof.
  intros Hm. unfold query. destruct m.
  - pose proof Hm as (_ & _ & _ & _ & [h Hh]).
    rewrite ask_raw_persistent by exact Hm. unfold def_, acquired. rewrite Hh.
    now rewrite (VisaInstrument_ask_raw_returns tr st h cmd Hh).
  - rewrite ask_raw_per_command by exact Hm. unfold def_.
    now rewrite (ask_raw_close_returns tr st cmd).
Qed.

Lemma perform_keeps (m : mode) (st : state) (o : op) :
  in_mode m st -> balanced st ->
  in_mode m (perform tr o st) /\ balanced (perform tr o st).
Proof.
  intros Hm Hb. destruct o as [cmd|cmd]; cbn [perform].
  - rewrite (send_state m st cmd Hm). destruct m.
    + pose proof Hm as (_ & _ & _ & _ & Hh).
      split; [apply in_mode_extend; auto |].
      now apply balanced_extend_quiet.
    + destruct (next_ret_code tr st cmd =? 0);
        (split; [apply in_mode_extend; [exact Hm | discriminate] |]);
        unfold balanced, extend, acquire_events, acquired, open_count,
          close_count in *; simpl; rewrite !count_events_app;
        destruct (visa_handle st) as [h|]; simpl;
        unfold count_events in *; simpl; lia.
  - rewrite (query_state m st cmd Hm). destruct m.
    + pose proof Hm as (_ & _ & _ & _ & [h Hh]).
      split; [apply in_mode_extend; [exact Hm | eauto] |].
      unfold acquired. rewrite Hh, <- Hh.
      now apply balanced_extend_quiet.
    + split; [apply in_mode_extend; [exact Hm | discriminate] |].
      unfold balanced, extend, acquire_events, acquired, open_count,
        close_count in *; simpl; rewrite !count_events_app;
        destruct (visa_handle st) as [h|]; simpl;
        unfold count_events in *; simpl; lia.
Qed.

Lemma perform_all_keeps (m : mode) (ops : list op) (st : state) :
  in_mode m st -> balanced st ->
  in_mode m (perform_all tr ops st) /\ balanced (perform_all tr ops st).
Proof.
  revert st. induction ops as [|o ops IH]; intros st Hm Hb; [now split |].
  destruct (perform_keeps m st o Hm Hb) as [Hm' Hb'].
  exact (IH _ Hm' Hb').
Qed.

End Sessions.

(** X4. Sessions stay balanced: after construction with either value of
    the flag and any sequence of sends and queries, whatever the transport
    reports, the driver is still in the mode it was constructed in, every
    session opened so far is closed except the stored one, which is the one
    opened last; so at most one session is open at any time. *)
Theorem sessions_stay_balanced
    (tr : transport) (nm address : string) (close_after_every_command : bool)
    (ops : list op) :
  let st := perform_all tr ops
              (snd (construct tr nm address close_after_every_command)) in
  in_mode (if close_after_every_command then PerCommand else Persistent) st /\
  balanced st /\
  (open_count (trace st) <= S (close_count (trace st)))%nat /\
  (visa_handle st = None -> open_count (trace st) = close_count (trace st)).
Proof.
  intros st.
  assert (H : in_mode (if close_after_every_command then PerCommand else Persistent) st
              /\ balanced st).
  { unfold st. apply perform_all_keeps.
    - destruct close_after_every_command; repeat split; try reflexivity.
      now exists (Handle 0 address CRLF None).
    - destruct close_after_every_command; vm_compute;
        [reflexivity | split; reflexivity]. }
  clearbody st. destruct H as [Hm Hb]. split; [exact Hm |]. split; [exact Hb |].
  unfold balanced in Hb. destruct (visa_handle st) as [h|].
  - destruct Hb as [Hb _]. split; [lia | discriminate].
  - split; [lia | auto].
Qed.

(** X5. In per-command mode a send that follows a query travels over the
    session that query left open and closes it: the pair opens at most one
    session, the one the query acquired, and ends with no handle stored. *)
Theorem send_after_query_closes_its_session
    (tr : transport) (st : state) (q c : string) :
  in_mode PerCommand st ->
  next_ret_code tr st c = 0 ->
  let s := session (acquired tr st) in
  perform_all tr [Query q; Send c] st
    = extend st (log_line "Querying" st q :: acquire_events st
                   ++ [EvQuery s q; log_line "Writing to" st c;
                       EvWrite s c; EvClose s]) None.
Proof.
  intros Hm Hrc s. cbn [perform_all fold_left perform].
  rewrite (query_state tr PerCommand st q Hm).
  set (st1 := extend st _ _).
  assert (Hm1 : in_mode PerCommand st1)
    by (apply in_mode_extend; [exact Hm | discriminate]).
  assert (Hrc1 : next_ret_code tr st1 c = 0).
  { assert (E0 : write_count (log_line "Querying" st q :: acquire_events st
                                ++ [EvQuery (session (acquired tr st)) q]) = 0%nat)
      by tally.
    unfold next_ret_code, st1 in *.
    now rewrite write_count_extend, E0, Nat.add_0_r. }
  rewrite (send_state tr PerCommand st1 c Hm1), Hrc1. cbn [Z.eqb].
  unfold st1. rewrite extend_extend. f_equal.
  cbn [app]. rewrite <- app_assoc. reflexivity.
Qed.

Lemma send_after_query_closes_its_session_witness :
  in_mode PerCommand fresh_instance /\
  next_ret_code (steady 0 "1") fresh_instance "OUTP 1" = 0 /\
  perform_all (steady 0 "1") [Query "OUTP?"; Send "OUTP 1"] fresh_instance
    = extend fresh_instance
        (log_line "Querying" fresh_instance "OUTP?" :: acquire_events fresh_instance
           ++ [EvQuery (session (acquired (steady 0 "1") fresh_instance)) "OUTP?";
               log_line "Writing to" fresh_instance "OUTP 1";
               EvWrite (session (acquired (steady 0 "1") fresh_instance)) "OUTP 1";
               EvClose (session (acquired (steady 0 "1") fresh_instance))]) None.
Proof.
  assert (Hm : in_mode PerCommand fresh_instance)
    by (vm_compute; repeat split; reflexivity).
  split; [exact Hm |]. split; [reflexivity |].
  exact (send_after_query_closes_its_session (steady 0 "1") fresh_instance
           "OUTP?" "OUTP 1" Hm eq_refl).
Defined.

(** * Rebinding the operations *)

Section Rebinding.

Lemma close_after_state (st : state) :
  snd (close_after st)
  = set_attr "write_raw" (BoundMethod F_write_raw_close)
      (set_attr "ask_raw" (BoundMethod F_ask_raw_close) st).
Proof. reflexivity. Qed.

Lemma dont_close_after_state (st : state) :
  snd (dont_close_after st)
  = set_attr "write" (PlainFunction F_VisaInstrument_write_raw)
      (set_attr "ask_raw" (PlainFunction F_VisaInstrument_ask_raw) st).
Proof. reflexivity. Qed.

End Rebinding.

(** X7. [close_after] selects the closing variants from any state: after
    it a send is [write_raw_close] and a query is [ask_raw_close], whatever
    was bound before.  It touches nothing else, so a handle that is open
    stays open and stored, and a binding of [write] stays; calling it again
    changes nothing. *)
Theorem close_after_selects_closing_variants
    (tr : transport) (st : state) (cmd : string) :
  let st' := snd (close_after st) in
  send tr cmd st' = def_ (write_raw_close tr cmd) st' /\
  query tr cmd st' = def_ (ask_raw_close tr cmd) st' /\
  snd (close_after st') = st' /\
  visa_handle st' = visa_handle st /\
  trace st' = trace st /\
  parameters st' = parameters st /\
  attrs st' !! "write" = attrs st !! "write" /\
  attrs st' !! "ask" = attrs st !! "ask".
Proof.
  intros st'. unfold st'. rewrite !close_after_state.
  assert (Hw : attrs (set_attr "write_raw" (BoundMethod F_write_raw_close)
                 (set_attr "ask_raw" (BoundMethod F_ask_raw_close) st))
               !! "write_raw" = Some (BoundMethod F_write_raw_close))
    by apply lookup_insert_eq.
  assert (Ha : attrs (set_attr "write_raw" (BoundMethod F_write_raw_close)
                 (set_attr "ask_raw" (BoundMethod F_ask_raw_close) st))
               !! "ask_raw" = Some (BoundMethod F_ask_raw_close)).
  { cbn [attrs set_attr]. rewrite lookup_insert_ne by discriminate.
    apply lookup_insert_eq. }
  split; [unfold send, write_raw, call_attr, bind, read; now rewrite Hw |].
  split; [unfold query, ask_raw, call_attr, bind, read; now rewrite Ha |].
  split.
  { unfold set_attr; cbn [name _address visa_handle attrs parameters trace].
    f_equal. apply map_eq. intros k.
    rewrite !lookup_insert. repeat case_decide; congruence. }
  do 3 (split; [reflexivity |]).
  cbn [attrs set_attr]. split; now rewrite !lookup_insert_ne by discriminate.
Qed.

(** X8. After [dont_close_after], from any state, [set_external_reference]
    fails on its first statement that talks to the device: [self.write] is
    then a plain function called without its [cmd], so the call ends with
    [TypeError] and nothing is written or queried. *)
Theorem set_external_reference_after_dont_close_after
    (tr : transport) (st : state) (fuel : nat) (f : Q) :
  let st' := snd (dont_close_after st) in
  fst (run (set_external_reference tr fuel f) st') = Raised TypeError /\
  actions (events_during (run (set_external_reference tr fuel f)) st') = [] /\
  events_during (run (set_external_reference tr fuel f)) st'
    = [EvLog "Setting the Oscillator source to external"].
Proof.
  intros st'.
  assert (Hw : attrs st' !! "write" = Some (PlainFunction F_VisaInstrument_write_raw)).
  { unfold st'. rewrite dont_close_after_state. apply lookup_insert_eq. }
  assert (E : set_external_reference tr fuel f st'
              = (Raised TypeError,
                 extend st' [EvLog "Setting the Oscillator source to external"]
                        (visa_handle st'))).
  { unfold set_external_reference.
    rewrite (bind_normal _ _ _ _ _ (load_global_bound "logging" st' eq_refl)).
    rewrite (bind_normal _ _ _ _ _ (emit_extend _ st')).
    apply bind_raised. unfold write, call_attr, bind, read.
    cbn [attrs extend]. now rewrite Hw. }
  unfold events_during, run, def_. rewrite E. cbn [fst snd trace extend].
  rewrite drop_app_length. repeat split.
Qed.

(** X9. [close_after] does not undo [dont_close_after]: after the two
    calls, from any state, the raw operations are the closing variants
    again, but [self.write] is still the plain function, so [write] and with
    it [set_external_reference] still end with [TypeError] and send
    nothing. *)
Theorem close_after_does_not_restore_write
    (tr : transport) (st : state) (cmd : string) (fuel : nat) (f : Q) :
  let st' := snd (close_after (snd (dont_close_after st))) in
  send tr cmd st' = def_ (write_raw_close tr cmd) st' /\
  query tr cmd st' = def_ (ask_raw_close tr cmd) st' /\
  write (R := Empty_set) tr cmd st' = (Raised TypeError, st') /\
  fst (run (set_external_reference tr fuel f) st') = Raised TypeError /\
  actions (events_during (run (set_external_reference tr fuel f)) st') = [].
Proof.
  intros st'.
  assert (Hw : attrs st' !! "write" = Some (PlainFunction F_VisaInstrument_write_raw)).
  { unfold st'. rewrite close_after_state, dont_close_after_state.
    cbn [attrs set_attr]. rewrite !lookup_insert_ne by discriminate.
    apply lookup_insert_eq. }
  assert (Hwr : attrs st' !! "write_raw" = Some (BoundMethod F_write_raw_close)).
  { unfold st'. rewrite close_after_state. apply lookup_insert_eq. }
  assert (Har : attrs st' !! "ask_raw" = Some (BoundMethod F_ask_raw_close)).
  { unfold st'. rewrite close_after_state. cbn [attrs set_attr].
    rewrite lookup_insert_ne by discriminate. apply lookup_insert_eq. }
  split; [unfold send, write_raw, call_attr, bind, read; now rewrite Hwr |].
  split; [unfold query, ask_raw, call_attr, bind, read; now rewrite Har |].
  split; [unfold write, call_attr, bind, read; now rewrite Hw |].
  assert (E : set_external_reference tr fuel f st'
              = (Raised TypeError,
                 extend st' [EvLog "Setting the Oscillator source to external"]
                        (visa_handle st'))).
  { unfold set_external_reference.
    rewrite (bind_normal _ _ _ _ _ (load_global_bound "logging" st' eq_refl)).
    rewrite (bind_normal _ _ _ _ _ (emit_extend _ st')).
    apply bind_raised. unfold write, call_attr, bind, read.
    cbn [attrs extend]. now rewrite Hw. }
  unfold events_during, run, def_. rewrite E. cbn [fst snd trace extend].
  rewrite drop_app_length. split; reflexivity.
Qed.

(** X10. The line terminations the constructor sets are on the handle it
    opened: a driver constructed in persistent mode keeps that handle, with
    CR LF for writing and none for reading, while in per-command mode that
    handle is closed and the handle a later query or send works on is the
    one [open_resource] returns, with the terminations of the transport. *)
Theorem terminations_set_on_first_handle_only
    (tr : transport) (nm address cmd : string) :
  visa_handle (snd (construct tr nm address false))
    = Some (Handle 0 address CRLF None) /\
  acquired tr (snd (construct tr nm address true))
    = Handle 1 address (opened_write_termination tr) (opened_read_termination tr) /\
  visa_handle (snd (query tr cmd (snd (construct tr nm address true))))
    = Some (Handle 1 address (opened_write_termination tr)
                   (opened_read_termination tr)).
Proof.
  split; [reflexivity |]. split; [reflexivity |].
  assert (Hm : in_mode PerCommand (snd (construct tr nm address true)))
    by (repeat split; reflexivity).
  now rewrite (query_state tr PerCommand _ cmd Hm).
Qed.

(** * The reference routine on rejected writes and on numbers without an
      integer value *)

Section Rejections.

Variable tr : transport.

(** One rejected [self.write] inside a method body. *)
Lemma write_rejected {R A} (m : mode) (st : state) (cmd : string) (k : stmt R A) :
  in_mode m st ->
  next_ret_code tr st cmd <> 0 ->
  exists evs h,
    (write tr cmd ;; k) st
      = (Raised (VisaIOError (next_ret_code tr st cmd)), extend st evs h) /\
    actions evs = [Wrote cmd].
Proof.
  intros Hm Hrc.
  destruct (write_in_mode tr (R := R) m st cmd Hm)
    as (out & evs & h & E & Ha & _ & _ & _ & Herr).
  rewrite (Herr Hrc) in E.
  exists evs, h. split; [exact (bind_raised _ _ _ _ _ E) | exact Ha].
Qed.

(** The routine up to its first rejected write. *)
Lemma reference_writes_rejected {A} (m : mode) (st : state) (f : Q)
      (k : stmt value A) (i : nat) (c : string) :
  in_mode m st ->
  reference_commands f !! i = Some c ->
  writes_succeed tr st (take i (reference_commands f)) ->
  snd (write_result tr (write_count (trace st) + i) c) <> 0 ->
  exists evs h,
    (write tr "ROSC:SOUR EXT" ;;
     write tr ("ROSC:EXT:FREQ " +:+ PyNum.format_d f) ;;
     write tr "ROSC:OUTP:STATE 1" ;;
     write tr ("ROSC:OUTP:FREQ " +:+ PyNum.format_d f) ;; k) st
      = (Raised (VisaIOError
                   (snd (write_result tr (write_count (trace st) + i) c))),
         extend st evs h) /\
    actions evs = Wrote <$> take (S i) (reference_commands f).
Proof.
  intros Hm Hc Hok Hrc. unfold writes_succeed, reference_commands in *.
  destruct i as [|i].
  { cbn in Hc. injection Hc as <-.
    rewrite Nat.add_0_r in Hrc |- *.
    exact (write_rejected m st _ _ Hm Hrc). }
  assert (H0 : next_ret_code tr st "ROSC:SOUR EXT" = 0).
  { unfold next_ret_code. rewrite <- (Nat.add_0_r (write_count _)).
    now apply Hok. }
  destruct (write_step tr m st _
              (write tr ("ROSC:EXT:FREQ " +:+ PyNum.format_d f) ;;
               write tr "ROSC:OUTP:STATE 1" ;;
               write tr ("ROSC:OUTP:FREQ " +:+ PyNum.format_d f) ;; k) Hm H0)
    as (e1 & h1 & E1 & A1 & W1 & Q1 & M1).
  rewrite E1. clear E1.
  assert (C1 : write_count (trace (extend st e1 h1)) = (write_count (trace st) + 1)%nat)
    by (now rewrite write_count_extend, W1).
  destruct i as [|i].
  { cbn in Hc. injection Hc as <-.
    assert (Hrc' : next_ret_code tr (extend st e1 h1)
                     ("ROSC:EXT:FREQ " +:+ PyNum.format_d f) <> 0)
      by (unfold next_ret_code; now rewrite C1).
    destruct (write_rejected m _ _
                (write tr "ROSC:OUTP:STATE 1" ;;
                 write tr ("ROSC:OUTP:FREQ " +:+ PyNum.format_d f) ;; k) M1 Hrc')
      as (e2 & h2 & E2 & A2).
    rewrite E2, extend_extend. unfold next_ret_code. rewrite C1.
    exists (e1 ++ e2), h2. split; [reflexivity |].
    now rewrite actions_app, A1, A2. }
  assert (H1 : next_ret_code tr (extend st e1 h1)
                 ("ROSC:EXT:FREQ " +:+ PyNum.format_d f) = 0).
  { unfold next_ret_code. rewrite C1. now apply Hok. }
  destruct (write_step tr m _ _
              (write tr "ROSC:OUTP:STATE 1" ;;
               write tr ("ROSC:OUTP:FREQ " +:+ PyNum.format_d f) ;; k) M1 H1)
    as (e2 & h2 & E2 & A2 & W2 & Q2 & M2).
  rewrite E2, extend_extend in *. clear E2.
  assert (C2 : write_count (trace (extend st (e1 ++ e2) h2))
               = (write_count (trace st) + 2)%nat).
  { rewrite write_count_extend. unfold write_count in *.
    rewrite count_events_app, W1, W2. lia. }
  destruct i as [|i].
  { cbn in Hc. injection Hc as <-.
    assert (Hrc' : next_ret_code tr (extend st (e1 ++ e2) h2)
                     "ROSC:OUTP:STATE 1" <> 0)
      by (unfold next_ret_code; now rewrite C2).
    destruct (write_rejected m _ _
                (write tr ("ROSC:OUTP:FREQ " +:+ PyNum.format_d f) ;; k) M2 Hrc')
      as (e3 & h3 & E3 & A3).
    rewrite E3, extend_extend. unfold next_ret_code. rewrite C2.
    exists ((e1 ++ e2) ++ e3), h3. split; [reflexivity |].
    now rewrite !actions_app, A1, A2, A3. }
  assert (H2 : next_ret_code tr (extend st (e1 ++ e2) h2) "ROSC:OUTP:STATE 1" = 0).
  { unfold next_ret_code. rewrite C2. now apply Hok. }
  destruct (write_step tr m _ _
              (write tr ("ROSC:OUTP:FREQ " +:+ PyNum.format_d f) ;; k) M2 H2)
    as (e3 & h3 & E3 & A3 & W3 & Q3 & M3).
  rewrite E3, extend_extend in *. clear E3.
  assert (C3 : write_count (trace (extend st ((e1 ++ e2) ++ e3) h3))
               = (write_count (trace st) + 3)%nat).
  { rewrite write_count_extend. unfold write_count in *.
    rewrite !count_events_app, W1, W2, W3. lia. }
  destruct i as [|i]; [| discriminate Hc].
  cbn in Hc. injection Hc as <-.
  assert (Hrc' : next_ret_code tr (extend st ((e1 ++ e2) ++ e3) h3)
                   ("ROSC:OUTP:FREQ " +:+ PyNum.format_d f) <> 0)
    by (unfold next_ret_code; now rewrite C3).
  destruct (write_rejected m _ _ k M3 Hrc') as (e4 & h4 & E4 & A4).
  rewrite E4, extend_extend. unfold next_ret_code. rewrite C3.
  exists (((e1 ++ e2) ++ e3) ++ e4), h4. split; [reflexivity |].
  now rewrite !actions_app, A1, A2, A3, A4.
Qed.

End Rejections.

(** X11. [set_external_reference] stops at the first write the transport
    rejects: when the writes before the [i]-th are accepted and the [i]-th
    comes back with an error code, the call ends with the error carrying
    that code, the commands up to and including the rejected one are the
    only ones written, and [ROSC:LOCK?] is never asked. *)
Theorem set_external_reference_stops_at_rejected_write
    (tr : transport) (m : mode) (st : state) (fuel : nat) (f : Q)
    (i : nat) (c : string) :
  in_mode m st ->
  reference_commands f !! i = Some c ->
  writes_succeed tr st (take i (reference_commands f)) ->
  snd (write_result tr (write_count (trace st) + i) c) <> 0 ->
  fst (run (set_external_reference tr fuel f) st)
    = Raised (VisaIOError (snd (write_result tr (write_count (trace st) + i) c))) /\
  actions (events_during (run (set_external_reference tr fuel f)) st)
    = Wrote <$> take (S i) (reference_commands f).
Proof.
  intros Hm Hc Hok Hrc.
  unfold events_during, run, def_, set_external_reference.
  rewrite (bind_normal _ _ _ _ _ (load_global_bound "logging" st eq_refl)).
  rewrite (bind_normal _ _ _ _ _ (emit_extend _ st)).
  set (st0 := extend st _ _).
  assert (Hm0 : in_mode m st0) by (apply in_mode_emit; exact Hm).
  assert (Hw0 : write_count (trace st0) = write_count (trace st)).
  { unfold st0. rewrite write_count_extend. simpl. now rewrite Nat.add_0_r. }
  assert (Hok0 : writes_succeed tr st0 (take i (reference_commands f))).
  { intros j d Hd. rewrite Hw0. now apply Hok. }
  rewrite <- Hw0 in Hrc |- *.
  destruct (reference_writes_rejected tr m st0 f
              (while_ fuel
                 (do r <- ask tr "ROSC:LOCK?";
                  do s <- str_strip r;
                  do n <- int_ s;
                  pure (negb (n =? 1)))
                 (emit (EvPrint "Waiting for lock on APSYN") ;;
                  load_global "qt" ;; emit (EvSleep 1))) i c Hm0 Hc Hok0 Hrc)
    as (evs & h & E & Ha).
  rewrite E. unfold st0. rewrite extend_extend. cbn [fst snd trace extend].
  rewrite drop_app_length. split; [reflexivity |].
  now rewrite actions_app, Ha.
Qed.

Lemma set_external_reference_stops_at_rejected_write_witness :
  in_mode PerCommand (instance_on (rejecting_from 2 (-1073807339))) /\
  reference_commands default_frequency !! 2%nat = Some "ROSC:OUTP:STATE 1" /\
  writes_succeed (rejecting_from 2 (-1073807339))
                 (instance_on (rejecting_from 2 (-1073807339)))
                 (take 2 (reference_commands default_frequency)) /\
  snd (write_result (rejecting_from 2 (-1073807339))
         (write_count (trace (instance_on (rejecting_from 2 (-1073807339)))) + 2)
         "ROSC:OUTP:STATE 1") <> 0 /\
  fst (run (set_external_reference (rejecting_from 2 (-1073807339)) 1
                                   default_frequency)
           (instance_on (rejecting_from 2 (-1073807339))))
    = Raised (VisaIOError
                (snd (write_result (rejecting_from 2 (-1073807339))
                        (write_count
                           (trace (instance_on (rejecting_from 2 (-1073807339)))) + 2)
                        "ROSC:OUTP:STATE 1"))) /\
  actions (events_during
             (run (set_external_reference (rejecting_from 2 (-1073807339)) 1
                                          default_frequency))
             (instance_on (rejecting_from 2 (-1073807339))))
    = Wrote <$> take 3 (reference_commands default_frequency).
Proof.
  assert (Hm : in_mode PerCommand (instance_on (rejecting_from 2 (-1073807339))))
    by (vm_compute; repeat split; reflexivity).
  assert (Hok : writes_succeed (rejecting_from 2 (-1073807339))
                  (instance_on (rejecting_from 2 (-1073807339)))
                  (take 2 (reference_commands default_frequency))).
  { intros [|[|j]] d Hd; try reflexivity. discriminate Hd. }
  assert (Hrc : snd (write_result (rejecting_from 2 (-1073807339))
                  (write_count (trace (instance_on (rejecting_from 2 (-1073807339)))) + 2)
                  "ROSC:OUTP:STATE 1") <> 0) by discriminate.
  split; [exact Hm |]. split; [reflexivity |]. split; [exact Hok |].
  split; [exact Hrc |].
  exact (set_external_reference_stops_at_rejected_write
           (rejecting_from 2 (-1073807339)) PerCommand
           (instance_on (rejecting_from 2 (-1073807339))) 1 default_frequency
           2 "ROSC:OUTP:STATE 1" Hm eq_refl Hok Hrc).
Defined.

(** X12. The frequency may be any number.  On a finite one the routine is
    [set_external_reference] as above.  On an infinity or a NaN the first
    write still goes out, and then the formatting of the second command
    fails, with [OverflowError] or [ValueError]: [ROSC:SOUR EXT] is the only
    command written and nothing is queried. *)
Theorem set_external_reference_without_integer_value
    (tr : transport) (m : mode) (st : state) (fuel : nat) :
  in_mode m st ->
  next_ret_code tr st "ROSC:SOUR EXT" = 0 ->
  (forall q : Q,
     set_external_reference_any tr fuel (PyNum.Finite q) st
       = set_external_reference tr fuel q st) /\
  (forall neg : bool,
     fst (run (set_external_reference_any tr fuel (PyNum.Infinite neg)) st)
       = Raised OverflowError /\
     actions (events_during
                (run (set_external_reference_any tr fuel (PyNum.Infinite neg))) st)
       = [Wrote "ROSC:SOUR EXT"]) /\
  fst (run (set_external_reference_any tr fuel PyNum.NaN) st) = Raised ValueError /\
  actions (events_during (run (set_external_reference_any tr fuel PyNum.NaN)) st)
    = [Wrote "ROSC:SOUR EXT"].
Proof.
  intros Hm Hrc.
  assert (Hfail : forall (x : PyNum.number) (e : exn),
            (forall k : string -> stmt value unit,
               forall s, bind (percent_d x) k s = (Raised e, s)) ->
            fst (run (set_external_reference_any tr fuel x) st) = Raised e /\
            actions (events_during (run (set_external_reference_any tr fuel x)) st)
              = [Wrote "ROSC:SOUR EXT"]).
  { intros x e Hx.
    unfold events_during, run, def_, set_external_reference_any.
    rewrite (bind_normal _ _ _ _ _ (load_global_bound "logging" st eq_refl)).
    rewrite (bind_normal _ _ _ _ _ (emit_extend _ st)).
    set (st0 := extend st _ _).
    assert (Hm0 : in_mode m st0) by (apply in_mode_emit; exact Hm).
    assert (Hrc0 : next_ret_code tr st0 "ROSC:SOUR EXT" = 0).
    { unfold next_ret_code, st0 in *. rewrite write_count_extend. simpl.
      now rewrite Nat.add_0_r. }
    match goal with
    | |- context [bind (write tr "ROSC:SOUR EXT") (fun _ => ?k)] =>
        destruct (write_step tr m st0 "ROSC:SOUR EXT" k Hm0 Hrc0)
          as (e1 & h1 & E1 & A1 & _)
    end.
    rewrite E1, Hx. unfold st0. rewrite extend_extend. cbn [fst snd trace extend].
    rewrite drop_app_length. split; [reflexivity |].
    now rewrite actions_app, A1. }
  split; [intros q; reflexivity |].
  split; [intros neg |]; apply Hfail; intros k s; reflexivity.
Qed.

Lemma set_external_reference_without_integer_value_witness :
  in_mode PerCommand fresh_instance /\
  next_ret_code (steady 0 "1") fresh_instance "ROSC:SOUR EXT" = 0 /\
  set_external_reference_any (steady 0 "1") 1 (PyNum.Finite default_frequency)
                             fresh_instance
    = set_external_reference (steady 0 "1") 1 default_frequency fresh_instance /\
  fst (run (set_external_reference_any (steady 0 "1") 1 (PyNum.Infinite false))
           fresh_instance) = Raised OverflowError /\
  actions (events_during
             (run (set_external_reference_any (steady 0 "1") 1 (PyNum.Infinite false)))
             fresh_instance) = [Wrote "ROSC:SOUR EXT"] /\
  fst (run (set_external_reference_any (steady 0 "1") 1 PyNum.NaN) fresh_instance)
    = Raised ValueError /\
  actions (events_during
             (run (set_external_reference_any (steady 0 "1") 1 PyNum.NaN))
             fresh_instance) = [Wrote "ROSC:SOUR EXT"].
Proof.
  assert (Hm : in_mode PerCommand fresh_instance)
    by (vm_compute; repeat split; reflexivity).
  destruct (set_external_reference_without_integer_value (steady 0 "1") PerCommand
              fresh_instance 1 Hm eq_refl) as (Hf & Hi & Hn1 & Hn2).
  destruct (Hi false) as [Hi1 Hi2].
  split; [exact Hm |]. split; [reflexivity |]. split; [exact (Hf default_frequency) |].
  split; [exact Hi1 |]. split; [exact Hi2 |]. split; [exact Hn1 | exact Hn2].
Defined.

(** * More on the parsing helpers *)

Section Normalising.
Import PyStr.

Lemma isspace_upper_char (c : ascii) : isspace (upper_char c) = isspace c.
Proof. destruct c as [[] [] [] [] [] [] [] []]; reflexivity. Qed.

Lemma upper_char_idempotent (c : ascii) : upper_char (upper_char c) = upper_char c.
Proof. destruct c as [[] [] [] [] [] [] [] []]; reflexivity. Qed.

Lemma islower_upper_char (c : ascii) : islower (upper_char c) = false.
Proof. destruct c as [[] [] [] [] [] [] [] []]; reflexivity. Qed.

Lemma lstrip_by_map (sp : ascii -> bool) (f : ascii -> ascii) (s : string) :
  (forall c, sp (f c) = sp c) ->
  lstrip_by sp (map_chars f s) = map_chars f (lstrip_by sp s).
Proof.
  intros H. induction s as [|c s IH]; [reflexivity |].
  cbn [map_chars lstrip_by]. rewrite H. now destruct (sp c).
Qed.

Lemma rstrip_by_map (sp : ascii -> bool) (f : ascii -> ascii) (s : string) :
  (forall c, sp (f c) = sp c) ->
  rstrip_by sp (map_chars f s) = map_chars f (rstrip_by sp s).
Proof.
  intros H. induction s as [|c s IH]; [reflexivity |].
  cbn [map_chars rstrip_by]. rewrite IH, H.
  destruct (rstrip_by sp s); [now destruct (sp c) | reflexivity].
Qed.

Lemma strip_upper (s : string) : strip (upper s) = upper (strip s).
Proof.
  unfold strip, upper.
  rewrite lstrip_by_map by exact isspace_upper_char.
  now rewrite rstrip_by_map by exact isspace_upper_char.
Qed.

Lemma upper_idempotent (s : string) : upper (upper s) = upper s.
Proof.
  unfold upper. induction s as [|c s IH]; [reflexivity |].
  cbn [map_chars]. now rewrite upper_char_idempotent, IH.
Qed.

Lemma upper_no_lowercase (s : string) :
  all_chars (fun c => negb (islower c)) (upper s) = true.
Proof.
  unfold upper. induction s as [|c s IH]; [reflexivity |].
  cbn [map_chars all_chars]. now rewrite islower_upper_char, IH.
Qed.

Lemma rstrip_by_kept (sp : ascii -> bool) (s : string) :
  match last_char s with Some c => sp c = false | None => True end ->
  rstrip_by sp s = s.
Proof.
  induction s as [|c s IH]; [reflexivity |].
  destruct s as [|d s].
  - cbn. now intros ->.
  - intros H.
    change (rstrip_by sp (String c (String d s)))
      with (match rstrip_by sp (String d s) with
            | EmptyString => if sp c then EmptyString else String c EmptyString
            | String a r => String c (String a r)
            end).
    rewrite (IH H). reflexivity.
Qed.

Lemma strip_trimmed (s : string) : trimmed s = true -> strip s = s.
Proof.
  unfold trimmed, strip. destruct s as [|c s]; [reflexivity |].
  cbn [first_char]. destruct (last_char (String c s)) as [b|] eqn:E.
  - intros H. apply andb_prop in H as [Ha Hb].
    apply negb_true_iff in Ha, Hb. cbn [lstrip_by]. rewrite Ha.
    apply rstrip_by_kept. now rewrite E.
  - exfalso. clear -E. revert c E. induction s as [|d s IH]; intros c E.
    + discriminate E.
    + exact (IH d E).
Qed.

Lemma lstrip_by_pad (sp : ascii -> bool) (l s : string) :
  all_chars sp l = true -> lstrip_by sp (l +:+ s) = lstrip_by sp s.
Proof.
  induction l as [|c l IH]; [reflexivity |].
  cbn [all_chars]. intros H. apply andb_prop in H as [Hc Hl].
  rewrite append_cons. cbn [lstrip_by]. rewrite Hc. exact (IH Hl).
Qed.

Lemma rstrip_by_all (sp : ascii -> bool) (r : string) :
  all_chars sp r = true -> rstrip_by sp r = "".
Proof.
  induction r as [|c r IH]; [reflexivity |].
  cbn [all_chars]. intros H. apply andb_prop in H as [Hc Hr].
  cbn [rstrip_by]. now rewrite (IH Hr), Hc.
Qed.

Lemma rstrip_by_pad (sp : ascii -> bool) (s r : string) :
  all_chars sp r = true -> rstrip_by sp (s +:+ r) = rstrip_by sp s.
Proof.
  intros Hr. induction s as [|c s IH].
  - rewrite append_nil_l. now apply rstrip_by_all.
  - rewrite append_cons. cbn [rstrip_by]. now rewrite IH.
Qed.

Lemma strip_pad_right (s r : string) :
  all_chars isspace r = true -> strip (s +:+ r) = strip s.
Proof.
  intros Hr. unfold strip. induction s as [|c s IH].
  - rewrite append_nil_l. cbn [lstrip_by rstrip_by].
    assert (E : exists t, lstrip_by isspace r = t /\ all_chars isspace t = true).
    { clear -Hr. induction r as [|d r IH]; [now exists "" |].
      cbn [all_chars] in Hr. apply andb_prop in Hr as [Hd Hr'].
      cbn [lstrip_by]. rewrite Hd. exact (IH Hr'). }
    destruct E as (t & -> & Ht). now apply rstrip_by_all.
  - rewrite append_cons. cbn [lstrip_by]. destruct (isspace c); [exact IH |].
    rewrite <- append_cons. now apply rstrip_by_pad.
Qed.

Lemma strip_pad (l s r : string) :
  all_chars isspace l = true -> all_chars isspace r = true ->
  strip (l +:+ s +:+ r) = strip s.
Proof.
  intros Hl Hr. rewrite <- (strip_pad_right s r Hr).
  unfold strip. now rewrite lstrip_by_pad.
Qed.

End Normalising.

(** X13. [parse_str] is a normal form: applying it twice is applying it
    once, and its result has no whitespace at either end and no lower-case
    letter. *)
Theorem parse_str_idempotent (s : string) :
  parse_str (parse_str s) = parse_str s /\
  PyStr.trimmed (parse_str s) = true /\
  PyStr.all_chars (fun c => negb (PyStr.islower c)) (parse_str s) = true.
Proof.
  assert (Ht : PyStr.trimmed (PyStr.strip s) = true).
  { destruct (strip_split s) as (l & r & _ & _ & _ & H). exact H. }
  unfold parse_str. split; [| split].
  - rewrite strip_upper, upper_idempotent. now rewrite (strip_trimmed _ Ht).
  - rewrite <- strip_upper.
    destruct (strip_split (PyStr.upper s)) as (l & r & _ & _ & _ & H). exact H.
  - apply upper_no_lowercase.
Qed.

(** X14. [parse_str] ignores the case of its input and the whitespace
    around it: two replies with the same upper-case form give the same
    token, and padding a reply with whitespace on either side changes
    nothing. *)
Theorem parse_str_ignores_case_and_padding :
  (forall s t : string, PyStr.upper s = PyStr.upper t -> parse_str s = parse_str t) /\
  (forall l s r : string,
     PyStr.all_chars PyStr.isspace l = true ->
     PyStr.all_chars PyStr.isspace r = true ->
     parse_str (l +:+ s +:+ r) = parse_str s).
Proof.
  split.
  - intros s t H. unfold parse_str. now rewrite <- !strip_upper, H.
  - intros l s r Hl Hr. unfold parse_str. now rewrite strip_pad.
Qed.

Lemma parse_str_ignores_case_and_padding_witness :
  PyStr.upper "Norm" = PyStr.upper "nORM" /\
  parse_str "Norm" = parse_str "nORM" /\
  PyStr.all_chars PyStr.isspace "  " = true /\
  PyStr.all_chars PyStr.isspace (String (ascii_of_nat 13) (String (ascii_of_nat 10) ""))
    = true /\
  parse_str ("  " +:+ "inv" +:+ String (ascii_of_nat 13) (String (ascii_of_nat 10) ""))
    = parse_str "inv".
Proof.
  split; [reflexivity |].
  split; [exact (proj1 parse_str_ignores_case_and_padding "Norm" "nORM" eq_refl) |].
  split; [reflexivity |]. split; [reflexivity |].
  exact (proj2 parse_str_ignores_case_and_padding "  " "inv"
           (String (ascii_of_nat 13) (String (ascii_of_nat 10) "")) eq_refl eq_refl).
Defined.

(** X15. [parse_on_off] is a normal form too: applying it twice is applying
    it once, and its result never starts with [0] or [1]. *)
Theorem parse_on_off_idempotent (s : string) :
  parse_on_off (parse_on_off s) = parse_on_off s /\
  PyStr.first_char (parse_on_off s) <> Some "0"%char /\
  PyStr.first_char (parse_on_off s) <> Some "1"%char.
Proof.
  destruct s as [|c s]; [repeat split; discriminate |].
  unfold parse_on_off, PyStr.startswith. cbn [String.prefix].
  destruct (ascii_dec "0" c) as [<-|H0].
  - replace (String.prefix "" s) with true by (now destruct s).
    repeat split; discriminate.
  - destruct (ascii_dec "1" c) as [<-|H1].
    + replace (String.prefix "" s) with true by (now destruct s).
      repeat split; discriminate.
    + cbn [String.prefix]. destruct (ascii_dec "0" c); [contradiction |].
      destruct (ascii_dec "1" c); [contradiction |].
      repeat split; cbn [PyStr.first_char]; congruence.
Qed.
